(** * LS-8 style CPU emulator (cpu.py): shallow embedding and properties

    The Python class [CPU] owns a register file (a list of 8 integers), a
    memory (a list of 256 integers), a program counter and a flags word.
    Python integers are unbounded, so every cell is modelled as a [Z]; the
    source contains no masking to 8 bits anywhere.  Python list subscripts
    accept negative indices (counted from the end) and raise [IndexError]
    outside [-len, len); both behaviours are written out in [py_index].

    Handlers mutate the object and may raise; they are modelled in a small
    state-and-exception monad that also collects the lines written by
    [print]. *)

From stdpp Require Import base numbers list strings gmap.
From Stdlib Require Import DecimalPos DecimalZ DecimalString.

Local Open Scope Z_scope.

(** ** Opcode constants (cpu.py lines 6-23)

    The source writes them in binary; they are given here in hexadecimal. *)

Definition POP  : Z := 0x46.
Definition PUSH : Z := 0x45.
Definition CALL : Z := 0x50.
Definition RET  : Z := 0x11.
Definition JMP  : Z := 0x54.
Definition JNE  : Z := 0x56.
Definition JEQ  : Z := 0x55.
Definition ADD  : Z := 0xa0.
Definition MUL  : Z := 0xa2.
Definition CMP  : Z := 0xa7.
Definition HLT  : Z := 0x01.
Definition LDI  : Z := 0x82.
Definition PRN  : Z := 0x47.

(** ** Python list subscripts *)

(** [l[i]] for a list of length [len]: indices [0 .. len-1] address from the
    front, [-len .. -1] from the back, anything else is an [IndexError]
    (here [None]). *)
Definition py_index (len : nat) (i : Z) : option nat :=
  if bool_decide (0 ≤ i < Z.of_nat len) then Some (Z.to_nat i)
  else if bool_decide (- Z.of_nat len ≤ i < 0) then Some (Z.to_nat (Z.of_nat len + i))
  else None.

Definition getitem (l : list Z) (i : Z) : option Z :=
  match py_index (length l) i with
  | Some k => l !! k
  | None => None
  end.

Definition setitem (l : list Z) (i : Z) (v : Z) : option (list Z) :=
  match py_index (length l) i with
  | Some k => Some (<[k:=v]> l)
  | None => None
  end.

(** ** Machine state, exceptions and the handler monad *)

Record cpu : Type := mkCPU {
  register : list Z;
  memory : list Z;
  pc : Z;
  fl : Z
}.

(** [self.sp] is set to 7 in the constructor and never reassigned. *)
Definition sp : Z := 7.

Definition set_register (r : list Z) (s : cpu) : cpu :=
  mkCPU r (memory s) (pc s) (fl s).
Definition set_memory (m : list Z) (s : cpu) : cpu :=
  mkCPU (register s) m (pc s) (fl s).
Definition set_pc (p : Z) (s : cpu) : cpu :=
  mkCPU (register s) (memory s) p (fl s).
Definition set_fl (f : Z) (s : cpu) : cpu :=
  mkCPU (register s) (memory s) (pc s) f.

Inductive exn : Type :=
  | IndexError
  | Exception (msg : string)
  | SystemExit (code : Z).

(** Outcome of running a piece of the program from a state: normal return
    with a value, or an exception; both carry the state reached and the
    lines printed so far. *)
Inductive result (A : Type) : Type :=
  | Ok (a : A) (s : cpu) (out : list string)
  | Raise (e : exn) (s : cpu) (out : list string).
Arguments Ok {A} a s out.
Arguments Raise {A} e s out.

Definition M (A : Type) : Type := cpu → result A.

Definition pure {A} (a : A) : M A := λ s, Ok a s [].

Definition bind {A B} (m : M A) (k : A → M B) : M B := λ s,
  match m s with
  | Ok a s1 out1 =>
      match k a s1 with
      | Ok b s2 out2 => Ok b s2 (out1 ++ out2)
      | Raise e s2 out2 => Raise e s2 (out1 ++ out2)
      end
  | Raise e s1 out1 => Raise e s1 out1
  end.

Declare Scope cpu_scope.
Delimit Scope cpu_scope with cpu.
Notation "x <- m ;; k" := (bind m (λ x, k))
  (at level 100, m at next level, right associativity) : cpu_scope.
Notation "m ;; k" := (bind m (λ _, k))
  (at level 100, right associativity) : cpu_scope.
Local Open Scope cpu_scope.

Definition raise {A} (e : exn) : M A := λ s, Raise e s [].
Definition print (line : string) : M unit := λ s, Ok tt s [line].

(** [str] of a Python integer: its decimal numeral.  CPython from 3.11 on
    refuses the conversion of an integer of more than 4300 digits with a
    [ValueError] unless that limit is lifted; the conversion is taken here
    without the limit, so what is said of printed text holds of such an
    interpreter for integers below 10^4300, and in particular for every
    8-bit value. *)
Definition str (z : Z) : string := NilZero.string_of_int (Z.to_int z).

Definition reg_get (i : Z) : M Z := λ s,
  match getitem (register s) i with
  | Some v => Ok v s []
  | None => Raise IndexError s []
  end.

Definition reg_set (i v : Z) : M unit := λ s,
  match setitem (register s) i v with
  | Some r => Ok tt (set_register r s) []
  | None => Raise IndexError s []
  end.

Definition mem_get (i : Z) : M Z := λ s,
  match getitem (memory s) i with
  | Some v => Ok v s []
  | None => Raise IndexError s []
  end.

Definition mem_set (i v : Z) : M unit := λ s,
  match setitem (memory s) i v with
  | Some m => Ok tt (set_memory m s) []
  | None => Raise IndexError s []
  end.

Definition get_pc : M Z := λ s, Ok (pc s) s [].
Definition put_pc (p : Z) : M unit := λ s, Ok tt (set_pc p s) [].
Definition get_fl : M Z := λ s, Ok (fl s) s [].
Definition put_fl (f : Z) : M unit := λ s, Ok tt (set_fl f s) [].

(** [operands[i]] on the operand list handed to a handler. *)
Definition operand (operands : list Z) (i : Z) : M Z := λ s,
  match getitem operands i with
  | Some v => Ok v s []
  | None => Raise IndexError s []
  end.

(** ** The constructor (cpu.py lines 28-51, state part) *)

Definition init : cpu :=
  mkCPU (<[Z.to_nat sp := 0xf4]> (replicate 8 0)) (replicate 256 0) 0 0.

(** ** Stack handlers (cpu.py lines 53-65) *)

Definition push (operands : list Z) : M unit :=
  old <- reg_get sp;; reg_set sp (old - 1);;
  p <- get_pc;;
  reg_num <- mem_get (p + 1);;
  reg_value <- reg_get reg_num;;
  top <- reg_get sp;;
  mem_set top reg_value;;
  p <- get_pc;; put_pc (p + 2).

Definition pop (operands : list Z) : M unit :=
  top <- reg_get sp;;
  val <- mem_get top;;
  p <- get_pc;;
  reg_num <- mem_get (p + 1);;
  reg_set reg_num val;;
  old <- reg_get sp;; reg_set sp (old + 1);;
  p <- get_pc;; put_pc (p + 2).

(** ** The ALU (cpu.py lines 67-91) *)

Definition alu (op : string) (reg_a reg_b : Z) : M unit :=
  if bool_decide (op = "ADD") then
    a <- reg_get reg_a;; b <- reg_get reg_b;; reg_set reg_a (a + b)
  else if bool_decide (op = "MUL") then
    a <- reg_get reg_a;; b <- reg_get reg_b;; reg_set reg_a (a * b)
  else if bool_decide (op = "CMP") then
    a <- reg_get reg_a;; b <- reg_get reg_b;;
    if bool_decide (a = b) then put_fl 0x01
    else
      a <- reg_get reg_a;; b <- reg_get reg_b;;
      if bool_decide (a < b) then put_fl 0x04
      else
        a <- reg_get reg_a;; b <- reg_get reg_b;;
        if bool_decide (a > b) then put_fl 0x02
        else raise (Exception "Unsupported ALU operation")
  else raise (Exception "Unsupported ALU operation").

(** ** Instruction handlers (cpu.py lines 137-190) *)

(** [self.running = False] only creates an attribute that nothing reads (the
    loop tests its own local variable); the handler leaves through
    [sys.exit(1)]. *)
Definition handle_hlt (operands : list Z) : M unit :=
  print "Halted!";;
  raise (SystemExit 1).

Definition handle_ldi (operands : list Z) : M unit :=
  v <- operand operands 1;;
  r <- operand operands 0;;
  reg_set r v;;
  p <- get_pc;; put_pc (p + 3).

Definition handle_prn (operands : list Z) : M unit :=
  r <- operand operands 0;;
  v <- reg_get r;;
  print (str v);;
  p <- get_pc;; put_pc (p + 2).

Definition handle_mul (operands : list Z) : M unit :=
  a <- operand operands 0;;
  b <- operand operands 1;;
  alu "MUL" a b;;
  p <- get_pc;; put_pc (p + 3).

Definition handle_add (operands : list Z) : M unit :=
  a <- operand operands 0;;
  b <- operand operands 1;;
  alu "ADD" a b;;
  p <- get_pc;; put_pc (p + 3).

Definition handle_cmp (operands : list Z) : M unit :=
  a <- operand operands 0;;
  b <- operand operands 1;;
  alu "CMP" a b;;
  p <- get_pc;; put_pc (p + 3).

Definition call (operands : list Z) : M unit :=
  old <- reg_get sp;; reg_set sp (old - 1);;
  p <- get_pc;;
  top <- reg_get sp;;
  mem_set top (p + 2);;
  p <- get_pc;;
  reg_num <- mem_get (p + 1);;
  target <- reg_get reg_num;;
  put_pc target.

Definition ret (operands : list Z) : M unit :=
  top <- reg_get sp;;
  addr <- mem_get top;;
  put_pc addr;;
  old <- reg_get sp;; reg_set sp (old + 1).

Definition jmp (operands : list Z) : M unit :=
  r <- operand operands 0;;
  target <- reg_get r;;
  put_pc target.

(** The source tests [(self.fl & 1) is 0] and [... is 1]; on the small
    integers 0 and 1 the identity test of CPython agrees with equality. *)
Definition jne (operands : list Z) : M unit :=
  f <- get_fl;;
  if bool_decide (Z.land f 0x01 = 0) then
    r <- operand operands 0;;
    target <- reg_get r;;
    put_pc target
  else
    p <- get_pc;; put_pc (p + 2).

Definition jeq (operands : list Z) : M unit :=
  f <- get_fl;;
  if bool_decide (Z.land f 0x01 = 1) then
    r <- operand operands 0;;
    target <- reg_get r;;
    put_pc target
  else
    p <- get_pc;; put_pc (p + 2).

(** ** The dispatch table (cpu.py lines 34-48), in insertion order *)

Definition branchtable : gmap Z (list Z → M unit) :=
  <[JEQ := jeq]> (<[JNE := jne]> (<[JMP := jmp]> (<[RET := ret]>
  (<[CALL := call]> (<[POP := pop]> (<[PUSH := push]>
  (<[CMP := handle_cmp]> (<[ADD := handle_add]> (<[MUL := handle_mul]>
  (<[PRN := handle_prn]> (<[LDI := handle_ldi]> (<[HLT := handle_hlt]> ∅)))))))))))).

(** The thirteen assignments of the constructor as a list, in source
    order. *)
Definition handlers : list (Z * (list Z → M unit)) :=
  [(HLT, handle_hlt); (LDI, handle_ldi); (PRN, handle_prn); (MUL, handle_mul);
   (ADD, handle_add); (CMP, handle_cmp); (PUSH, push); (POP, pop); (CALL, call);
   (RET, ret); (JMP, jmp); (JNE, jne); (JEQ, jeq)].

(** ** The fetch-decode-execute loop (cpu.py lines 113-135) *)

Definition ram_read (address : Z) : M Z := mem_get address.
Definition ram_write (address value : Z) : M unit := mem_set address value.

(** [operand_count = (ir >> 6) & 0b00000011] *)
Definition operand_count (ir : Z) : Z := Z.land (Z.shiftr ir 6) 0x03.

(** [for i in range(1, operand_count + 1): operands.append(ram_read(pc + i))]:
    [fetch_operands n i acc] runs the [n] remaining iterations starting at
    loop index [i] with [acc] the list built so far. *)
Fixpoint fetch_operands (n : nat) (i : Z) (acc : list Z) : M (list Z) :=
  match n with
  | O => pure acc
  | S n' =>
      p <- get_pc;;
      v <- ram_read (p + i);;
      fetch_operands n' (i + 1) (acc ++ [v])
  end.

(** [if ir in self.branchtable: self.branchtable[ir](operands)
    else: print("Instruction not found!")] *)
Definition dispatch (ir : Z) (operands : list Z) : M unit :=
  match branchtable !! ir with
  | Some handler => handler operands
  | None => print "Instruction not found!"
  end.

(** One iteration of the [while] body. *)
Definition step : M unit :=
  p <- get_pc;;
  ir <- ram_read p;;
  operands <- fetch_operands (Z.to_nat (operand_count ir)) 1 [];;
  dispatch ir operands.

(** [while running:] the local [running] is never reassigned, so the loop
    is left only through an exception.  [run_loop fuel] performs at most
    [fuel] iterations: [Ok] means the loop is still running after them,
    [Raise] that an iteration left the loop. *)
Fixpoint run_loop (fuel : nat) : M unit :=
  match fuel with
  | O => pure tt
  | S fuel' => step;; run_loop fuel'
  end.

Definition run (fuel : nat) : M unit :=
  print "Running CPU...";;
  run_loop fuel.

(** ** Program loading, as far as the state is concerned (cpu.py lines 192-211)

    [load] writes the parsed values to addresses 0, 1, ... in order; parsing
    the text is outside the model, which starts from the list of values. *)
Fixpoint load_from (address : Z) (values : list Z) : M unit :=
  match values with
  | [] => pure tt
  | value :: rest => mem_set address value;; load_from (address + 1) rest
  end.

Definition load (values : list Z) : M unit := load_from 0 values.

(** ** The text side of [load] (cpu.py lines 200-208)

    The loop over the lines of the program file.  Two built-ins are taken as
    parameters: [strip] stands for [str.strip] and [int2] for [int(num, 2)],
    with [None] for the [ValueError] it raises on a malformed numeral.
    Neither that error nor an [IndexError] of the store is caught by [load],
    whose [except] clause names [FileNotFoundError] alone. *)

(** The character '#' (code 35). *)
Definition hash : Ascii.ascii := Ascii.ascii_of_nat 35.

(** [line.split("#")[0]]: the text before the first '#'. *)
Fixpoint before_hash (line : string) : string :=
  match line with
  | EmptyString => EmptyString
  | String c rest =>
      if Ascii.eqb c hash then EmptyString else String c (before_hash rest)
  end.

Inductive load_result : Type :=
  | Loaded (s : cpu)
  | LoadValueError (num : string) (s : cpu)
  | LoadIndexError (s : cpu).

Fixpoint load_lines (strip : string → string) (int2 : string → option Z)
    (address : Z) (lines : list string) (s : cpu) : load_result :=
  match lines with
  | [] => Loaded s
  | line :: rest =>
      let num := strip (before_hash line) in
      if decide (num = EmptyString) then load_lines strip int2 address rest s
      else
        match int2 num with
        | None => LoadValueError num s
        | Some value =>
            match setitem (memory s) address value with
            | None => LoadIndexError s
            | Some m => load_lines strip int2 (address + 1) rest (set_memory m s)
            end
        end
  end.

(** ** Notions used in the statements *)

(** Two subscripts that denote the same cell of [l]. *)
Definition same_cell (l : list Z) (i j : Z) : Prop :=
  py_index (length l) i = py_index (length l) j.

(** The three meaningful bits of FL. *)
Definition flag_E (f : Z) : bool := Z.testbit f 0.
Definition flag_G (f : Z) : bool := Z.testbit f 1.
Definition flag_L (f : Z) : bool := Z.testbit f 2.

(** The message of the only [Exception] the ALU constructs. *)
Definition unsupported : exn := Exception "Unsupported ALU operation".

(** The lists of a state are never resized: every write is an item
    assignment.  [shape s] is what the constructor establishes. *)
Definition shape (s : cpu) : Prop :=
  length (register s) = 8%nat ∧ length (memory s) = 256%nat.

(** A computation keeps the lengths of both lists, whether it returns or
    raises. *)
Definition keeps_lengths {A} (m : M A) : Prop :=
  ∀ s, match m s with
       | Ok _ s' _ | Raise _ s' _ =>
           length (register s') = length (register s) ∧
           length (memory s') = length (memory s)
       end.

(** ** Sample states *)

Definition regs_200_100 : cpu := mkCPU [200; 100; 0; 0; 0; 0; 0; 0xf4] (replicate 256 0) 0 0.
Definition regs_16_16 : cpu := mkCPU [16; 16; 0; 0; 0; 0; 0; 0xf4] (replicate 256 0) 0 0.
Definition equal_set : cpu := mkCPU [0; 0; 0; 42; 0; 0; 0; 0xf4] (replicate 256 0) 10 1.
Definition equal_clear : cpu := mkCPU [0; 0; 0; 42; 0; 0; 0; 0xf4] (replicate 256 0) 10 4.
Definition push_sp_state : cpu :=
  mkCPU [0; 0; 0; 0; 0; 0; 0; 0xf4] ([PUSH; 7; POP; 0] ++ replicate 252 0) 0 0.
Definition pop_sp_state : cpu :=
  mkCPU [5; 0; 0; 0; 0; 0; 0; 0xf4] ([PUSH; 0; POP; 7] ++ replicate 252 0) 0 0.
Definition push_pop_state : cpu :=
  mkCPU [5; 9; 0; 0; 0; 0; 0; 0xf4] ([PUSH; 0; POP; 1] ++ replicate 252 0) 0 0.
Definition push_sp_pop_sp_state : cpu :=
  mkCPU [0; 0; 0; 0; 0; 0; 0; 0xf4] ([PUSH; 7; POP; 7] ++ replicate 252 0) 0 0.
Definition call_collision_state : cpu :=
  mkCPU [10; 0; 20; 0; 0; 0; 0; 2] ([CALL; 0] ++ replicate 254 0) 0 0.
Definition call_state : cpu :=
  mkCPU [10; 0; 0; 0; 0; 0; 0; 0xf4]
        ([CALL; 0] ++ replicate 8 0 ++ [RET] ++ replicate 245 0) 0 0.
Definition unknown_opcode_state : cpu :=
  mkCPU [0; 0; 0; 0; 0; 0; 0; 0xf4] ([0x40; 9] ++ replicate 254 0) 0 0.
Definition ldi_prn_state : cpu :=
  mkCPU [0; 0; 0; 0; 0; 0; 0; 0xf4] ([LDI; 3; 200; PRN; 3] ++ replicate 251 0) 0 0.
Definition three_operand_state : cpu :=
  mkCPU [0; 0; 0; 0; 0; 0; 0; 0xf4] ([0xc0; 1; 2; 3] ++ replicate 252 0) 0 0.
Definition three_operand_edge_state : cpu :=
  mkCPU [0; 0; 0; 0; 0; 0; 0; 0xf4] (replicate 253 0 ++ [0xc0; 7; 9]) 253 0.

(** LDI R0,8; LDI R1,9; ADD R0,R1; PRN R0; HLT *)
Definition add_program : list Z := [LDI; 0; 8; LDI; 1; 9; ADD; 0; 1; PRN; 0; HLT].
Definition add_program_loaded : cpu :=
  mkCPU [0; 0; 0; 0; 0; 0; 0; 0xf4] (add_program ++ replicate 244 0) 0 0.

(** ** Effects of a computation

    An [effect] relates the state a computation starts from to the state it
    ends in, the lines it prints and the exception it raises, if any.
    [always Q m] says that every run of [m] has effect [Q]. *)
Definition effect : Type := cpu → cpu → list string → option exn → Prop.

Definition run_effect {A} (Q : effect) (m : M A) (s : cpu) : Prop :=
  match m s with
  | Ok _ s' out => Q s s' out None
  | Raise e s' out => Q s s' out (Some e)
  end.

Definition always {A} (Q : effect) (m : M A) : Prop := ∀ s, run_effect Q m s.

(** Effects that hold of a step that does nothing, of a failed subscript,
    and of two computations in sequence when they hold of each. *)
Class Sequential (Q : effect) : Prop := {
  seq_skip : ∀ s, Q s s [] None;
  seq_index : ∀ s, Q s s [] (Some IndexError);
  seq_then : ∀ s s1 s2 out1 out2 x,
    Q s s1 out1 None → Q s1 s2 out2 x → Q s s2 (out1 ++ out2) x
}.

(** The component [f] of the state is left as it was. *)
Definition keeps {X} (f : cpu → X) : effect := λ s s' _ _, f s' = f s.

(** Nothing is printed. *)
Definition silent : effect := λ _ _ out _, out = [].

(** The only exception raised is [IndexError]. *)
Definition faults_only : effect := λ _ _ _ x, x = None ∨ x = Some IndexError.

(** On normal return PC has moved by [k]. *)
Definition pc_by (k : Z) : effect := λ s s' _ x, x = None → pc s' = pc s + k.

(** The loop is left by a failed subscript, or by [sys.exit(1)] with PC on
    a HLT byte and "Halted!" as the last line printed. *)
Definition leaves_by_fault_or_hlt : effect := λ _ s' out x,
  x = None ∨ x = Some IndexError ∨
  (x = Some (SystemExit 1) ∧ getitem (memory s') (pc s') = Some HLT ∧
   last out = Some "Halted!").

(** State and output a run ends with, whether it returns or raises. *)
Definition state_of {A} (r : result A) : cpu :=
  match r with Ok _ s _ | Raise _ s _ => s end.
Definition output_of {A} (r : result A) : list string :=
  match r with Ok _ _ out | Raise _ _ out => out end.
Definition cmp_state : cpu :=
  mkCPU [3; 3; 0; 0; 0; 0; 0; 0xf4] ([CMP; 0; 1; JEQ; 2] ++ replicate 251 0) 0 4.
Definition pop_push_state : cpu :=
  mkCPU [0; 0; 0; 0; 0; 0; 0; 0xf0]
        ([POP; 2; PUSH; 2] ++ replicate 236 0 ++ [77] ++ replicate 15 0) 0 0.
Definition cmp_jne_state : cpu :=
  mkCPU [3; 4; 9; 0; 0; 0; 0; 0xf4] ([CMP; 0; 1; JNE; 2] ++ replicate 251 0) 0 0.
Definition mul_program : list Z := [LDI; 0; 8; LDI; 1; 9; MUL; 0; 1; PRN; 0; HLT].
Definition jmp_out_state : cpu :=
  mkCPU [256; 0; 0; 0; 0; 0; 0; 0xf4] ([LDI; 0; 256; JMP; 0] ++ replicate 251 0) 3 0.
Definition swap_state : cpu :=
  mkCPU [0; 11; 22; 0; 0; 0; 0; 0xf4]
        ([PUSH; 1; PUSH; 2; POP; 1; POP; 2] ++ replicate 248 0) 0 0.

(** * Properties *)

(** ** Python subscripts *)

Lemma py_index_lt len i k : py_index len i = Some k → (k < len)%nat.
Proof.
  unfold py_index. repeat case_bool_decide; intros [= <-]; lia.
Qed.

Lemma py_index_nonneg len i :
  0 ≤ i < Z.of_nat len → py_index len i = Some (Z.to_nat i).
Proof. intros H. unfold py_index. by rewrite bool_decide_true. Qed.

Section subscripts.
Variable l : list Z.

Lemma getitem_is_Some i : is_Some (getitem l i) ↔ is_Some (py_index (length l) i).
Proof.
  unfold getitem. destruct (py_index (length l) i) as [k|] eqn:E.
  - split; [eauto|]. intros _. apply lookup_lt_is_Some. by eapply py_index_lt.
  - split; intros [? [=]].
Qed.

Lemma setitem_is_Some i v : is_Some (setitem l i v) ↔ is_Some (getitem l i).
Proof.
  rewrite getitem_is_Some. unfold setitem.
  destruct (py_index (length l) i); split; intros [? ?]; eauto; discriminate.
Qed.

Lemma setitem_length i v l' : setitem l i v = Some l' → length l' = length l.
Proof.
  unfold setitem. destruct (py_index (length l) i); intros [= <-].
  apply length_insert.
Qed.

Lemma getitem_setitem_eq i v l' : setitem l i v = Some l' → getitem l' i = Some v.
Proof.
  intros H. pose proof (setitem_length _ _ _ H) as Hlen.
  unfold setitem in H. unfold getitem. rewrite Hlen.
  destruct (py_index (length l) i) as [k|] eqn:E; [|done].
  injection H as <-. apply list_lookup_insert_eq. by eapply py_index_lt.
Qed.

Lemma getitem_setitem_ne i j v l' :
  setitem l i v = Some l' → ¬ same_cell l i j → getitem l' j = getitem l j.
Proof.
  intros H Hne. pose proof (setitem_length _ _ _ H) as Hlen.
  unfold setitem in H. unfold getitem, same_cell in *. rewrite Hlen.
  destruct (py_index (length l) i) as [k|] eqn:E; [|done].
  injection H as <-.
  destruct (py_index (length l) j) as [k'|] eqn:E'; [|done].
  apply list_lookup_insert_ne. congruence.
Qed.

(** Distinct non-negative subscripts in range denote distinct cells. *)
Lemma same_cell_nonneg i j :
  0 ≤ i < Z.of_nat (length l) → 0 ≤ j < Z.of_nat (length l) →
  same_cell l i j → i = j.
Proof.
  intros Hi Hj. unfold same_cell.
  rewrite !py_index_nonneg by done. intros [= H]. lia.
Qed.

Lemma getitem_nonneg_lt i v : 0 ≤ i → getitem l i = Some v → i < Z.of_nat (length l).
Proof.
  intros Hi H. unfold getitem, py_index in H.
  repeat case_bool_decide; try lia; done.
Qed.

End subscripts.

(** ** Running the primitive operations *)

Lemma bind_silent {A B} (m : M A) (k : A → M B) s a s1 :
  m s = Ok a s1 [] → bind m k s = k a s1.
Proof. intros H. unfold bind. rewrite H. by destruct (k a s1). Qed.

Lemma bind_raise {A B} (m : M A) (k : A → M B) s e s1 out :
  m s = Raise e s1 out → bind m k s = Raise e s1 out.
Proof. intros H. unfold bind. by rewrite H. Qed.

Lemma reg_get_Ok s i v : getitem (register s) i = Some v → reg_get i s = Ok v s [].
Proof. intros H. unfold reg_get. by rewrite H. Qed.

Lemma reg_set_Ok s i v r :
  setitem (register s) i v = Some r → reg_set i v s = Ok tt (set_register r s) [].
Proof. intros H. unfold reg_set. by rewrite H. Qed.

Lemma mem_get_Ok s i v : getitem (memory s) i = Some v → mem_get i s = Ok v s [].
Proof. intros H. unfold mem_get. by rewrite H. Qed.

Lemma mem_set_Ok s i v m :
  setitem (memory s) i v = Some m → mem_set i v s = Ok tt (set_memory m s) [].
Proof. intros H. unfold mem_set. by rewrite H. Qed.

Lemma get_pc_Ok s : get_pc s = Ok (pc s) s [].
Proof. done. Qed.

Lemma get_fl_Ok s : get_fl s = Ok (fl s) s [].
Proof. done. Qed.

Lemma operand_Ok ops i v s : getitem ops i = Some v → operand ops i s = Ok v s [].
Proof. intros H. unfold operand. by rewrite H. Qed.

(** One silent primitive at the head of a sequence. *)
Ltac exec_with lem :=
  erewrite bind_silent; [| solve [ eapply lem; first [eassumption | done] ] ].

Ltac exec :=
  first [ exec_with reg_get_Ok | exec_with reg_set_Ok | exec_with mem_get_Ok
        | exec_with mem_set_Ok | exec_with operand_Ok
        | (erewrite bind_silent; [| solve [ apply get_pc_Ok | apply get_fl_Ok ] ]) ];
  cbn [register memory pc fl set_register set_memory set_pc set_fl].

(** ** The lists keep their lengths *)

Lemma keeps_lengths_bind {A B} (m : M A) (k : A → M B) :
  keeps_lengths m → (∀ a, keeps_lengths (k a)) → keeps_lengths (bind m k).
Proof.
  intros Hm Hk s. unfold bind. specialize (Hm s).
  destruct (m s) as [a s1 o1|e s1 o1]; [|done].
  specialize (Hk a s1). destruct (k a s1); simpl; lia.
Qed.

Lemma keeps_lengths_if {A} (b : bool) (m1 m2 : M A) :
  keeps_lengths m1 → keeps_lengths m2 → keeps_lengths (if b then m1 else m2).
Proof. by destruct b. Qed.

Lemma keeps_lengths_pure {A} (a : A) : keeps_lengths (pure a).
Proof. by intros s. Qed.

Lemma keeps_lengths_raise {A} e : keeps_lengths (@raise A e).
Proof. by intros s. Qed.

Lemma keeps_lengths_print line : keeps_lengths (print line).
Proof. by intros s. Qed.

Lemma keeps_lengths_reg_get i : keeps_lengths (reg_get i).
Proof. intros s. unfold reg_get. by destruct (getitem _ _). Qed.

Lemma keeps_lengths_mem_get i : keeps_lengths (mem_get i).
Proof. intros s. unfold mem_get. by destruct (getitem _ _). Qed.

Lemma keeps_lengths_operand ops i : keeps_lengths (operand ops i).
Proof. intros s. unfold operand. by destruct (getitem _ _). Qed.

Lemma keeps_lengths_reg_set i v : keeps_lengths (reg_set i v).
Proof.
  intros s. unfold reg_set. destruct (setitem _ _ _) eqn:E; [|done].
  simpl. split; [by eapply setitem_length|done].
Qed.

Lemma keeps_lengths_mem_set i v : keeps_lengths (mem_set i v).
Proof.
  intros s. unfold mem_set. destruct (setitem _ _ _) eqn:E; [|done].
  simpl. split; [done|by eapply setitem_length].
Qed.

Lemma keeps_lengths_get_pc : keeps_lengths get_pc.
Proof. by intros s. Qed.
Lemma keeps_lengths_put_pc p : keeps_lengths (put_pc p).
Proof. by intros s. Qed.
Lemma keeps_lengths_get_fl : keeps_lengths get_fl.
Proof. by intros s. Qed.
Lemma keeps_lengths_put_fl f : keeps_lengths (put_fl f).
Proof. by intros s. Qed.

Create HintDb lengths.
#[local] Hint Resolve keeps_lengths_pure keeps_lengths_raise keeps_lengths_print
  keeps_lengths_reg_get keeps_lengths_mem_get keeps_lengths_operand
  keeps_lengths_reg_set keeps_lengths_mem_set keeps_lengths_get_pc
  keeps_lengths_put_pc keeps_lengths_get_fl keeps_lengths_put_fl : lengths.

Ltac lengths :=
  repeat first
    [ apply keeps_lengths_bind; [|intros ?]
    | apply keeps_lengths_if
    | solve [auto with lengths] ].

Lemma keeps_lengths_alu op a b : keeps_lengths (alu op a b).
Proof. unfold alu. lengths. Qed.

#[local] Hint Resolve keeps_lengths_alu : lengths.

Lemma keeps_lengths_handler ir handler operands :
  branchtable !! ir = Some handler → keeps_lengths (handler operands).
Proof.
  unfold branchtable. intros H.
  repeat (rewrite lookup_insert in H; case_decide;
          [injection H as <-;
           unfold jeq, jne, jmp, ret, call, pop, push, handle_cmp, handle_add,
             handle_mul, handle_prn, handle_ldi, handle_hlt; lengths|]).
  by rewrite lookup_empty in H.
Qed.

Lemma keeps_lengths_fetch_operands n : ∀ i acc, keeps_lengths (fetch_operands n i acc).
Proof.
  induction n as [|n IH]; intros i acc; simpl; unfold ram_read; lengths.
Qed.

Lemma keeps_lengths_step : keeps_lengths step.
Proof.
  unfold step, ram_read. lengths; [apply keeps_lengths_fetch_operands|].
  unfold dispatch. destruct (branchtable !! _) eqn:E; [|lengths].
  by eapply keeps_lengths_handler.
Qed.

Lemma keeps_lengths_run_loop fuel : keeps_lengths (run_loop fuel).
Proof.
  induction fuel as [|fuel IH]; simpl; [lengths|].
  apply keeps_lengths_bind; [apply keeps_lengths_step | intros _; apply IH].
Qed.

Lemma init_shape : shape init.
Proof. split; reflexivity. Qed.

(** X21: no instruction resizes a list: whatever a run from a state with 8
    registers and 256 memory cells does, and however it ends, the state it
    reaches has 8 registers and 256 memory cells. *)
Lemma run_loop_shape fuel s :
  shape s →
  match run_loop fuel s with Ok _ s' _ | Raise _ s' _ => shape s' end.
Proof.
  intros [Hr Hm]. pose proof (keeps_lengths_run_loop fuel s) as H.
  destruct (run_loop fuel s); unfold shape; lia.
Qed.

(** In such a state the subscripts 0..7 address registers and 0..255 address
    memory. *)
Lemma shape_register_index s r : shape s → 0 ≤ r < 8 → is_Some (getitem (register s) r).
Proof.
  intros [Hr _] Hrng. apply getitem_is_Some. rewrite py_index_nonneg; [eauto|lia].
Qed.

Lemma shape_memory_address s a : shape s → 0 ≤ a < 256 → is_Some (getitem (memory s) a).
Proof.
  intros [_ Hm] Hrng. apply getitem_is_Some. rewrite py_index_nonneg; [eauto|lia].
Qed.

(** ** The stored flag bits *)

Lemma land_1_testbit f : Z.land f 1 = Z.b2z (Z.testbit f 0).
Proof. change 1 with (Z.ones 1). rewrite Z.land_ones by lia. symmetry. apply Z.bit0_mod. Qed.

(** ** The ALU *)

Lemma alu_add_exact s ra rb va vb :
  getitem (register s) ra = Some va →
  getitem (register s) rb = Some vb →
  ∃ r', setitem (register s) ra (va + vb) = Some r' ∧
        alu "ADD" ra rb s = Ok tt (set_register r' s) [].
Proof.
  intros Ha Hb.
  destruct (proj2 (setitem_is_Some (register s) ra (va + vb))) as [r' Hr']; [eauto|].
  exists r'. split; [done|].
  unfold alu. rewrite bool_decide_true by done.
  do 2 exec. by apply reg_set_Ok.
Qed.

Lemma alu_mul_exact s ra rb va vb :
  getitem (register s) ra = Some va →
  getitem (register s) rb = Some vb →
  ∃ r', setitem (register s) ra (va * vb) = Some r' ∧
        alu "MUL" ra rb s = Ok tt (set_register r' s) [].
Proof.
  intros Ha Hb.
  destruct (proj2 (setitem_is_Some (register s) ra (va * vb))) as [r' Hr']; [eauto|].
  exists r'. split; [done|].
  unfold alu. rewrite bool_decide_false by done. rewrite bool_decide_true by done.
  do 2 exec. by apply reg_set_Ok.
Qed.

Lemma stored_mod_iff (r : list Z) i x :
  getitem r i = Some x → (getitem r i = Some (x mod 256) ↔ 0 ≤ x < 256).
Proof.
  intros ->. split.
  - intros [= H]. pose proof (Z.mod_pos_bound x 256). lia.
  - intros H. by rewrite Z.mod_small.
Qed.

(** C1, as stated, fails: with 200 in register 0 and 100 in register 1, ADD
    leaves 300 in register 0, not (200 + 100) mod 256 = 44; with 16 in both,
    MUL leaves 256, not (16 * 16) mod 256 = 0. *)
Lemma alu_add_mul_wrap_counterexample :
  alu "ADD" 0 1 regs_200_100
    = Ok tt (set_register [300; 100; 0; 0; 0; 0; 0; 0xf4] regs_200_100) [] ∧
  (200 + 100) mod 256 = 44 ∧
  alu "MUL" 0 1 regs_16_16
    = Ok tt (set_register [256; 16; 0; 0; 0; 0; 0; 0xf4] regs_16_16) [] ∧
  (16 * 16) mod 256 = 0.
Proof. repeat split; reflexivity. Qed.

(** C1, amended: for registers holding [va] and [vb], ADD stores the exact
    integer sum [va + vb] in register[a] and MUL the exact product [va * vb],
    with no reduction; the stored value is the one reduced mod 256 exactly
    when it lies in 0..255.  Nothing else in the state changes and nothing
    is printed. *)
Theorem alu_add_mul_unbounded s ra rb va vb :
  getitem (register s) ra = Some va →
  getitem (register s) rb = Some vb →
  (∃ r', alu "ADD" ra rb s = Ok tt (set_register r' s) [] ∧
         getitem r' ra = Some (va + vb) ∧
         (∀ j, ¬ same_cell (register s) ra j → getitem r' j = getitem (register s) j) ∧
         (getitem r' ra = Some ((va + vb) mod 256) ↔ 0 ≤ va + vb < 256)) ∧
  (∃ r', alu "MUL" ra rb s = Ok tt (set_register r' s) [] ∧
         getitem r' ra = Some (va * vb) ∧
         (∀ j, ¬ same_cell (register s) ra j → getitem r' j = getitem (register s) j) ∧
         (getitem r' ra = Some ((va * vb) mod 256) ↔ 0 ≤ va * vb < 256)).
Proof.
  intros Ha Hb. split.
  - destruct (alu_add_exact s ra rb va vb Ha Hb) as (r' & Hset & Hrun).
    exists r'. pose proof (getitem_setitem_eq _ _ _ _ Hset) as Hget.
    split_and!; [done | done | | by apply stored_mod_iff].
    intros j Hj. by eapply getitem_setitem_ne.
  - destruct (alu_mul_exact s ra rb va vb Ha Hb) as (r' & Hset & Hrun).
    exists r'. pose proof (getitem_setitem_eq _ _ _ _ Hset) as Hget.
    split_and!; [done | done | | by apply stored_mod_iff].
    intros j Hj. by eapply getitem_setitem_ne.
Qed.

Lemma alu_add_mul_unbounded_witness :
  (∃ r', alu "ADD" 0 1 regs_200_100 = Ok tt (set_register r' regs_200_100) [] ∧
         getitem r' 0 = Some (200 + 100) ∧
         (∀ j, ¬ same_cell (register regs_200_100) 0 j →
               getitem r' j = getitem (register regs_200_100) j) ∧
         (getitem r' 0 = Some ((200 + 100) mod 256) ↔ 0 ≤ 200 + 100 < 256)) ∧
  (∃ r', alu "MUL" 0 1 regs_200_100 = Ok tt (set_register r' regs_200_100) [] ∧
         getitem r' 0 = Some (200 * 100) ∧
         (∀ j, ¬ same_cell (register regs_200_100) 0 j →
               getitem r' j = getitem (register regs_200_100) j) ∧
         (getitem r' 0 = Some ((200 * 100) mod 256) ↔ 0 ≤ 200 * 100 < 256)).
Proof.
  apply (alu_add_mul_unbounded regs_200_100 0 1 200 100); reflexivity.
Defined.

Lemma alu_cmp_run s ra rb va vb :
  getitem (register s) ra = Some va →
  getitem (register s) rb = Some vb →
  alu "CMP" ra rb s =
    Ok tt (set_fl (if bool_decide (va = vb) then 1
                   else if bool_decide (va < vb) then 4 else 2) s) [].
Proof.
  intros Ha Hb. unfold alu.
  rewrite !bool_decide_false by done. rewrite bool_decide_true by done.
  do 2 exec. case_bool_decide; [done|].
  do 2 exec. case_bool_decide; [done|].
  do 2 exec. rewrite bool_decide_true by lia. done.
Qed.

(** C2: after CMP on registers holding [va] and [vb], the flags word of the
    state reached is one of the three single-bit values: exactly one of Equal
    (bit 0), Greater-than (bit 1) and Less-than (bit 2) is set in FL, the one
    matching the comparison, and the other two are clear; equal values always
    set Equal.  Registers, memory and PC are as they were after the ALU call;
    the CMP instruction handler reaches the same flags and has PC moved
    by 3. *)
Theorem cmp_sets_exactly_one_flag s ra rb va vb :
  getitem (register s) ra = Some va →
  getitem (register s) rb = Some vb →
  ∃ s1 s2,
    alu "CMP" ra rb s = Ok tt s1 [] ∧
    handle_cmp [ra; rb] s = Ok tt s2 [] ∧
    register s1 = register s ∧ memory s1 = memory s ∧ pc s1 = pc s ∧
    register s2 = register s ∧ memory s2 = memory s ∧ pc s2 = pc s + 3 ∧
    fl s2 = fl s1 ∧
    ((va = vb ∧ fl s1 = 1 ∧
      flag_E (fl s1) = true ∧ flag_G (fl s1) = false ∧ flag_L (fl s1) = false) ∨
     (va > vb ∧ fl s1 = 2 ∧
      flag_E (fl s1) = false ∧ flag_G (fl s1) = true ∧ flag_L (fl s1) = false) ∨
     (va < vb ∧ fl s1 = 4 ∧
      flag_E (fl s1) = false ∧ flag_G (fl s1) = false ∧ flag_L (fl s1) = true)) ∧
    (va = vb → flag_E (fl s1) = true).
Proof.
  intros Ha Hb. pose proof (alu_cmp_run s ra rb va vb Ha Hb) as Hrun.
  eexists _, _. split; [exact Hrun|]. split.
  { unfold handle_cmp. do 2 exec. exec_with Hrun. by exec. }
  cbn [register memory pc fl set_fl set_pc].
  split_and!; try done.
  - destruct (decide (va = vb)) as [Heq|Hne].
    + left. rewrite bool_decide_true by done. done.
    + rewrite (bool_decide_false (va = vb)) by done.
      destruct (decide (va < vb)) as [Hlt|Hge].
      * right; right. rewrite bool_decide_true by done. split_and!; done.
      * right; left. rewrite bool_decide_false by done. split_and!; done || lia.
  - intros Heq. by rewrite bool_decide_true by done.
Qed.

Lemma cmp_sets_exactly_one_flag_witness :
  ∃ s1 s2,
    alu "CMP" 0 1 regs_200_100 = Ok tt s1 [] ∧
    handle_cmp [0; 1] regs_200_100 = Ok tt s2 [] ∧
    register s1 = register regs_200_100 ∧ memory s1 = memory regs_200_100 ∧
    pc s1 = pc regs_200_100 ∧
    register s2 = register regs_200_100 ∧ memory s2 = memory regs_200_100 ∧
    pc s2 = pc regs_200_100 + 3 ∧
    fl s2 = fl s1 ∧
    ((200 = 100 ∧ fl s1 = 1 ∧
      flag_E (fl s1) = true ∧ flag_G (fl s1) = false ∧ flag_L (fl s1) = false) ∨
     (200 > 100 ∧ fl s1 = 2 ∧
      flag_E (fl s1) = false ∧ flag_G (fl s1) = true ∧ flag_L (fl s1) = false) ∨
     (200 < 100 ∧ fl s1 = 4 ∧
      flag_E (fl s1) = false ∧ flag_G (fl s1) = false ∧ flag_L (fl s1) = true)) ∧
    (200 = 100 → flag_E (fl s1) = true).
Proof.
  apply (cmp_sets_exactly_one_flag regs_200_100 0 1 200 100); reflexivity.
Defined.

Lemma reg_get_bind_unsupported i (k : Z → M unit) s s' out :
  (∀ v, getitem (register s) i = Some v → k v s ≠ Raise unsupported s' out) →
  bind (reg_get i) k s ≠ Raise unsupported s' out.
Proof.
  intros Hk. unfold bind, reg_get.
  destruct (getitem (register s) i) as [v|] eqn:E; [|done].
  specialize (Hk v eq_refl). destruct (k v s); [done|].
  simpl. congruence.
Qed.

Lemma reg_set_unsupported i v s s' out : reg_set i v s ≠ Raise unsupported s' out.
Proof. unfold reg_set. by destruct (setitem _ _ _). Qed.

Lemma alu_supported_never_unsupported op ra rb s s' out :
  op ∈ ["ADD"; "MUL"; "CMP"] → alu op ra rb s ≠ Raise unsupported s' out.
Proof.
  intros Hop. unfold alu.
  repeat case_bool_decide.
  - apply reg_get_bind_unsupported. intros a Ha.
    apply reg_get_bind_unsupported. intros b Hb. apply reg_set_unsupported.
  - apply reg_get_bind_unsupported. intros a Ha.
    apply reg_get_bind_unsupported. intros b Hb. apply reg_set_unsupported.
  - apply reg_get_bind_unsupported. intros a Ha.
    apply reg_get_bind_unsupported. intros b Hb.
    case_bool_decide; [done|].
    apply reg_get_bind_unsupported. intros a2 Ha2.
    apply reg_get_bind_unsupported. intros b2 Hb2.
    case_bool_decide; [done|].
    apply reg_get_bind_unsupported. intros a3 Ha3.
    apply reg_get_bind_unsupported. intros b3 Hb3.
    case_bool_decide; [done|].
    assert (a2 = a ∧ a3 = a ∧ b2 = b ∧ b3 = b) by (split_and!; congruence). lia.
  - rewrite !elem_of_cons, elem_of_nil in Hop. tauto.
Qed.

(** C9: the ALU raises the unsupported-operation exception exactly when its
    tag is none of "ADD", "MUL", "CMP"; with a tag among the three and two
    subscripts that address registers it returns normally, so the [else]
    after the three comparisons of CMP is never taken. *)
Theorem alu_unsupported_iff op ra rb s :
  ((∃ s' out, alu op ra rb s = Raise unsupported s' out) ↔
     op ∉ ["ADD"; "MUL"; "CMP"]) ∧
  (op ∈ ["ADD"; "MUL"; "CMP"] →
   is_Some (getitem (register s) ra) → is_Some (getitem (register s) rb) →
   ∃ s', alu op ra rb s = Ok tt s' []).
Proof.
  split; [split|].
  - intros (s' & out & Hrun) Hop.
    by eapply alu_supported_never_unsupported.
  - intros Hop. exists s, []. unfold alu.
    rewrite !elem_of_cons in Hop.
    rewrite !bool_decide_false; [done|tauto..].
  - intros Hop [va Ha] [vb Hb].
    rewrite !elem_of_cons in Hop. destruct Hop as [->|[->|[->|Hop]]].
    + destruct (alu_add_exact s ra rb va vb Ha Hb) as (r' & _ & Hrun). eauto.
    + destruct (alu_mul_exact s ra rb va vb Ha Hb) as (r' & _ & Hrun). eauto.
    + rewrite (alu_cmp_run s ra rb va vb Ha Hb). eauto.
    + by apply elem_of_nil in Hop.
Qed.

Lemma alu_unsupported_iff_witness :
  ((∃ s' out, alu "CMP" 0 1 regs_200_100 = Raise unsupported s' out) ↔
     "CMP" ∉ ["ADD"; "MUL"; "CMP"]) ∧
  ∃ s', alu "CMP" 0 1 regs_200_100 = Ok tt s' [].
Proof.
  destruct (alu_unsupported_iff "CMP" 0 1 regs_200_100) as [Hiff Hok].
  split; [exact Hiff|].
  apply Hok; [repeat constructor | by eexists | by eexists].
Defined.

(** ** Conditional jumps *)

(** C7: with the Equal flag (bit 0 of FL) set, JEQ r moves PC to register[r]
    and JNE r adds 2 to PC; with it clear, JNE r moves PC to register[r] and
    JEQ r adds 2 to PC.  Nothing else changes. *)
Theorem jeq_jne_follow_equal_flag s r target :
  getitem (register s) r = Some target →
  (flag_E (fl s) = true →
     jeq [r] s = Ok tt (set_pc target s) [] ∧
     jne [r] s = Ok tt (set_pc (pc s + 2) s) []) ∧
  (flag_E (fl s) = false →
     jne [r] s = Ok tt (set_pc target s) [] ∧
     jeq [r] s = Ok tt (set_pc (pc s + 2) s) []).
Proof.
  intros Hr. unfold flag_E, jeq, jne.
  split; intros Hbit; (split; exec; rewrite land_1_testbit, Hbit; simpl).
  - by do 2 exec.
  - by exec.
  - by do 2 exec.
  - by exec.
Qed.

Lemma jeq_jne_follow_equal_flag_witness :
  (jeq [3] equal_set = Ok tt (set_pc 42 equal_set) [] ∧
   jne [3] equal_set = Ok tt (set_pc (pc equal_set + 2) equal_set) []) ∧
  (jne [3] equal_clear = Ok tt (set_pc 42 equal_clear) [] ∧
   jeq [3] equal_clear = Ok tt (set_pc (pc equal_clear + 2) equal_clear) []).
Proof.
  split.
  - apply (jeq_jne_follow_equal_flag equal_set 3 42); reflexivity.
  - apply (jeq_jne_follow_equal_flag equal_clear 3 42); reflexivity.
Defined.

(** ** Decode and dispatch *)

Lemma fetch_operands_Ok n : ∀ i acc s vs,
  length vs = n →
  (∀ j, (j < n)%nat → vs !! j = getitem (memory s) (pc s + i + Z.of_nat j)) →
  fetch_operands n i acc s = Ok (acc ++ vs) s [].
Proof.
  induction n as [|n IH]; intros i acc s vs Hlen Hvs.
  - destruct vs; [|done]. simpl. unfold pure. by rewrite app_nil_r.
  - destruct vs as [|v vs]; [done|]. simpl.
    assert (getitem (memory s) (pc s + i) = Some v) as Hv.
    { specialize (Hvs 0%nat ltac:(lia)). simpl in Hvs. by rewrite Z.add_0_r in Hvs. }
    exec. unfold ram_read. exec.
    rewrite (IH (i + 1) (acc ++ [v]) s vs).
    + by rewrite <- app_assoc.
    + simpl in Hlen. lia.
    + intros j Hj. specialize (Hvs (S j) ltac:(lia)). simpl in Hvs.
      rewrite Hvs. f_equal. lia.
Qed.

Lemma fetch_operands_IndexError n : ∀ i acc s,
  (∃ j, (j < n)%nat ∧ getitem (memory s) (pc s + i + Z.of_nat j) = None) →
  fetch_operands n i acc s = Raise IndexError s [].
Proof.
  induction n as [|n IH]; intros i acc s (j & Hj & Hnone); [lia|].
  simpl. exec. unfold ram_read.
  destruct (getitem (memory s) (pc s + i)) as [v|] eqn:Hv.
  - exec. apply IH. destruct j as [|j].
    + simpl in Hnone. rewrite Z.add_0_r in Hnone. congruence.
    + exists j. split; [lia|]. rewrite <- Hnone. f_equal. lia.
  - apply bind_raise. unfold mem_get. by rewrite Hv.
Qed.

Lemma readable_operands (m : list Z) (base : Z) n :
  (∀ j, (j < n)%nat → is_Some (getitem m (base + Z.of_nat j))) →
  ∃ vs, length vs = n ∧ ∀ j, (j < n)%nat → vs !! j = getitem m (base + Z.of_nat j).
Proof.
  induction n as [|n IH]; intros Hread.
  - exists []. split; [done|]. intros; lia.
  - destruct IH as (vs & Hlen & Hvs); [intros; apply Hread; lia|].
    destruct (Hread n ltac:(lia)) as [v Hv].
    exists (vs ++ [v]). split; [rewrite length_app; simpl; lia|].
    intros j Hj. destruct (decide (j = n)) as [->|Hne].
    + rewrite Hv. rewrite lookup_app_r by lia.
      by replace (n - length vs)%nat with 0%nat by lia.
    + rewrite lookup_app_l by lia. apply Hvs. lia.
Qed.

(** The body of the loop once the instruction and its operands are read. *)
Lemma step_dispatch s ir ops :
  getitem (memory s) (pc s) = Some ir →
  length ops = Z.to_nat (operand_count ir) →
  (∀ j, (j < length ops)%nat → ops !! j = getitem (memory s) (pc s + 1 + Z.of_nat j)) →
  step s = dispatch ir ops s.
Proof.
  intros Hir Hlen Hops. unfold step. exec. unfold ram_read. exec.
  erewrite bind_silent; [done|].
  rewrite (fetch_operands_Ok _ 1 [] s ops); [done|done|].
  intros j Hj. apply Hops. lia.
Qed.

Lemma step_one_operand s ir v :
  getitem (memory s) (pc s) = Some ir →
  operand_count ir = 1 →
  getitem (memory s) (pc s + 1) = Some v →
  step s = dispatch ir [v] s.
Proof.
  intros Hir Hn Hv. apply step_dispatch; [done|by rewrite Hn|].
  intros [|j] Hj; simpl in *; [|lia]. by rewrite Z.add_0_r.
Qed.

Lemma step_no_operand s ir :
  getitem (memory s) (pc s) = Some ir →
  operand_count ir = 0 →
  step s = dispatch ir [] s.
Proof.
  intros Hir Hn. apply step_dispatch; [done|by rewrite Hn|].
  intros j Hj; simpl in *; lia.
Qed.

Lemma step_two_operands s ir v w :
  getitem (memory s) (pc s) = Some ir →
  operand_count ir = 2 →
  getitem (memory s) (pc s + 1) = Some v →
  getitem (memory s) (pc s + 2) = Some w →
  step s = dispatch ir [v; w] s.
Proof.
  intros Hir Hn Hv Hw. apply step_dispatch; [done|by rewrite Hn|].
  intros [|[|j]] Hj; simpl in *; [by rewrite Z.add_0_r| |lia].
  rewrite <- Hw. f_equal. lia.
Qed.

(** ** The stack *)

Lemma push_run ops s r top regs1 v m1 :
  getitem (register s) sp = Some top →
  setitem (register s) sp (top - 1) = Some regs1 →
  getitem (memory s) (pc s + 1) = Some r →
  getitem regs1 r = Some v →
  setitem (memory s) (top - 1) v = Some m1 →
  push ops s = Ok tt (mkCPU regs1 m1 (pc s + 2) (fl s)) [].
Proof.
  intros Htop Hregs Hr Hv Hm. unfold push.
  pose proof (getitem_setitem_eq _ _ _ _ Hregs) as Htop1.
  do 7 exec. by exec.
Qed.

Lemma pop_run ops s r top val regs1 top1 regs2 :
  getitem (register s) sp = Some top →
  getitem (memory s) top = Some val →
  getitem (memory s) (pc s + 1) = Some r →
  setitem (register s) r val = Some regs1 →
  getitem regs1 sp = Some top1 →
  setitem regs1 sp (top1 + 1) = Some regs2 →
  pop ops s = Ok tt (mkCPU regs2 (memory s) (pc s + 2) (fl s)) [].
Proof.
  intros Htop Hval Hr Hregs1 Htop1 Hregs2. unfold pop.
  do 7 exec. by exec.
Qed.

Lemma call_run ops s top regs1 m1 reg target :
  getitem (register s) sp = Some top →
  setitem (register s) sp (top - 1) = Some regs1 →
  setitem (memory s) (top - 1) (pc s + 2) = Some m1 →
  getitem m1 (pc s + 1) = Some reg →
  getitem regs1 reg = Some target →
  call ops s = Ok tt (mkCPU regs1 m1 target (fl s)) [].
Proof.
  intros Htop Hregs Hm Hreg Htarget. unfold call.
  pose proof (getitem_setitem_eq _ _ _ _ Hregs) as Htop1.
  do 8 exec. done.
Qed.

Lemma ret_run ops s top addr regs1 :
  getitem (register s) sp = Some top →
  getitem (memory s) top = Some addr →
  setitem (register s) sp (top + 1) = Some regs1 →
  ret ops s = Ok tt (mkCPU regs1 (memory s) addr (fl s)) [].
Proof.
  intros Htop Haddr Hregs. unfold ret.
  do 2 exec. erewrite bind_silent; [|done].
  cbn [register memory pc fl set_register set_memory set_pc set_fl].
  exec. unfold reg_set. cbn [register set_pc]. by rewrite Hregs.
Qed.

Lemma dispatch_PUSH ops : dispatch PUSH ops = push ops.
Proof. reflexivity. Qed.
Lemma dispatch_POP ops : dispatch POP ops = pop ops.
Proof. reflexivity. Qed.
Lemma dispatch_CALL ops : dispatch CALL ops = call ops.
Proof. reflexivity. Qed.
Lemma dispatch_RET ops : dispatch RET ops = ret ops.
Proof. reflexivity. Qed.
Lemma dispatch_LDI ops : dispatch LDI ops = handle_ldi ops.
Proof. reflexivity. Qed.
Lemma dispatch_PRN ops : dispatch PRN ops = handle_prn ops.
Proof. reflexivity. Qed.

Lemma sp_in_range (l : list Z) top : getitem l sp = Some top → (8 ≤ length l)%nat.
Proof. intros H. apply getitem_nonneg_lt in H; unfold sp in *; lia. Qed.

Lemma low_register_not_sp (l : list Z) r :
  0 ≤ r < 7 → (8 ≤ length l)%nat → ¬ same_cell l sp r ∧ ¬ same_cell l r sp.
Proof.
  intros Hr Hlen. unfold sp.
  split; intros H; apply same_cell_nonneg in H; lia.
Qed.

Lemma low_register_is_Some (l : list Z) r :
  0 ≤ r < 7 → (8 ≤ length l)%nat → is_Some (getitem l r).
Proof.
  intros Hr Hlen. apply getitem_is_Some. rewrite py_index_nonneg by lia. eauto.
Qed.

(** C10: PUSH with operand 7 decrements register 7 first and then reads it,
    so the cell at the new top of stack receives the decremented stack
    pointer, old SP - 1; the same holds for the loop iteration that fetches
    PUSH 7. *)
Theorem push_sp_stores_decremented_sp s ops top :
  getitem (memory s) (pc s + 1) = Some 7 →
  getitem (register s) sp = Some top →
  is_Some (getitem (memory s) (top - 1)) →
  ∃ regs1 m1,
    push ops s = Ok tt (mkCPU regs1 m1 (pc s + 2) (fl s)) [] ∧
    setitem (register s) sp (top - 1) = Some regs1 ∧
    setitem (memory s) (top - 1) (top - 1) = Some m1 ∧
    getitem regs1 sp = Some (top - 1) ∧
    getitem m1 (top - 1) = Some (top - 1) ∧
    (getitem (memory s) (pc s) = Some PUSH →
     step s = Ok tt (mkCPU regs1 m1 (pc s + 2) (fl s)) []).
Proof.
  intros Hop Htop Hslot.
  destruct (proj2 (setitem_is_Some (register s) sp (top - 1))) as [regs1 Hregs]; [eauto|].
  destruct (proj2 (setitem_is_Some (memory s) (top - 1) (top - 1)) Hslot) as [m1 Hm].
  pose proof (getitem_setitem_eq _ _ _ _ Hregs) as Htop1.
  assert (∀ ops', push ops' s = Ok tt (mkCPU regs1 m1 (pc s + 2) (fl s)) []) as Hrun.
  { intros ops'. by eapply push_run. }
  exists regs1, m1. split_and!; try done.
  - by eapply getitem_setitem_eq.
  - intros Hir. rewrite (step_one_operand s PUSH 7) by done. apply Hrun.
Qed.

Lemma push_sp_stores_decremented_sp_witness :
  ∃ regs1 m1,
    push [7] push_sp_state = Ok tt (mkCPU regs1 m1 (pc push_sp_state + 2) (fl push_sp_state)) [] ∧
    setitem (register push_sp_state) sp (0xf4 - 1) = Some regs1 ∧
    setitem (memory push_sp_state) (0xf4 - 1) (0xf4 - 1) = Some m1 ∧
    getitem regs1 sp = Some (0xf4 - 1) ∧
    getitem m1 (0xf4 - 1) = Some (0xf4 - 1) ∧
    (getitem (memory push_sp_state) (pc push_sp_state) = Some PUSH →
     step push_sp_state = Ok tt (mkCPU regs1 m1 (pc push_sp_state + 2) (fl push_sp_state)) []).
Proof.
  apply (push_sp_stores_decremented_sp push_sp_state [7] 0xf4);
    [reflexivity | reflexivity | by eexists].
Defined.

(** C4, as stated, fails when one of the two registers is the stack pointer
    and the other is not, and when the pushed value changes a byte of the POP
    instruction:
    - PUSH 7; POP 0 with SP = 244 leaves 243 in register 0, not 244;
    - PUSH 0; POP 7 with 5 in register 0 leaves 6 in register 7, which is
      neither the pushed 5 nor the SP before the push (244);
    - PUSH 0; POP 1 with 5 in register 0 and SP = 4 overwrites the operand
      byte of the POP with 5, so register 5 receives the value and register 1
      keeps its 9. *)
Lemma push_pop_sp_counterexample :
  run_loop 2 push_sp_state
    = Ok tt (mkCPU [243; 0; 0; 0; 0; 0; 0; 244]
                   (<[243%nat := 243]> (memory push_sp_state)) 4 0) [] ∧
  run_loop 2 pop_sp_state
    = Ok tt (mkCPU [5; 0; 0; 0; 0; 0; 0; 6]
                   (<[243%nat := 5]> (memory pop_sp_state)) 4 0) [] ∧
  run_loop 2 (set_register [5; 9; 0; 0; 0; 0; 0; 4] push_pop_state)
    = Ok tt (mkCPU [5; 9; 0; 0; 0; 5; 0; 4]
                   (<[3%nat := 5]> (memory push_pop_state)) 4 0) [].
Proof. split_and!; reflexivity. Qed.

Lemma getitem_setitem_same_cell (l : list Z) i j v l' :
  setitem l i v = Some l' → same_cell l i j → getitem l' j = Some v.
Proof.
  intros Hset Hsame. rewrite <- (getitem_setitem_eq _ _ _ _ Hset).
  unfold getitem, same_cell in *.
  by rewrite (setitem_length _ _ _ _ Hset), Hsame.
Qed.

(** C4, amended: for register indices r and r' that are both in 0..6 or
    both 7, with the stack slot SP - 1 in memory and the push leaving the two
    bytes of the POP instruction as they are (the slot is neither of them, or
    the word pushed equals the byte it lands on), PUSH r followed by POP r'
    leaves the value v that register[r] held before the PUSH in
    register[r'], the stack pointer at its value before the PUSH, and PC four
    bytes on.  The word pushed is v, or SP - 1 when r is 7. *)
Theorem push_pop_roundtrip s r r' v top :
  getitem (memory s) (pc s) = Some PUSH →
  getitem (memory s) (pc s + 1) = Some r →
  getitem (memory s) (pc s + 2) = Some POP →
  getitem (memory s) (pc s + 3) = Some r' →
  (0 ≤ r < 7 ∧ 0 ≤ r' < 7) ∨ (r = 7 ∧ r' = 7) →
  getitem (register s) r = Some v →
  getitem (register s) sp = Some top →
  is_Some (getitem (memory s) (top - 1)) →
  let pushed := if bool_decide (r = 7) then top - 1 else v in
  (same_cell (memory s) (top - 1) (pc s + 2) → pushed = POP) →
  (same_cell (memory s) (top - 1) (pc s + 3) → pushed = r') →
  ∃ s2, run_loop 2 s = Ok tt s2 [] ∧
        getitem (register s2) r' = Some v ∧
        getitem (register s2) sp = Some top ∧
        pc s2 = pc s + 4.
Proof.
  intros Hpush Hr Hpop Hr' Hrng Hv Htop Hslot pushed Hc2 Hc3.
  pose proof (sp_in_range _ _ Htop) as Hlen.
  (* the PUSH *)
  destruct (proj2 (setitem_is_Some (register s) sp (top - 1))) as [regs1 Hregs1]; [eauto|].
  pose proof (setitem_length _ _ _ _ Hregs1) as Hlen1.
  pose proof (getitem_setitem_eq _ _ _ _ Hregs1) as Htop1.
  assert (getitem regs1 r = Some pushed) as Hv1.
  { subst pushed. destruct Hrng as [[Hr7 _]|[-> _]].
    - rewrite bool_decide_false by lia.
      rewrite (getitem_setitem_ne _ _ _ _ _ Hregs1); [done|].
      by apply low_register_not_sp.
    - by rewrite bool_decide_true by done. }
  destruct (proj2 (setitem_is_Some (memory s) (top - 1) pushed) Hslot) as [m1 Hm1].
  set (s1 := mkCPU regs1 m1 (pc s + 2) (fl s)).
  assert (step s = Ok tt s1 []) as Hstep1.
  { rewrite (step_one_operand s PUSH r) by done.
    rewrite dispatch_PUSH. by eapply push_run. }
  (* the bytes of the POP after the store *)
  assert (∀ j byte, getitem (memory s) (pc s + j) = Some byte →
            (same_cell (memory s) (top - 1) (pc s + j) → pushed = byte) →
            getitem m1 (pc s + j) = Some byte) as Hbyte.
  { intros j byte Hj Hc.
    destruct (decide (py_index (length (memory s)) (top - 1)
                      = py_index (length (memory s)) (pc s + j))) as [Hsame|Hdiff].
    - rewrite (getitem_setitem_same_cell _ _ _ _ _ Hm1 Hsame). f_equal. by apply Hc.
    - by rewrite (getitem_setitem_ne _ _ _ _ _ Hm1). }
  assert (getitem (memory s1) (pc s1) = Some POP) as Hpop1.
  { simpl. by apply Hbyte. }
  assert (getitem (memory s1) (pc s1 + 1) = Some r') as Hr1.
  { simpl. replace (pc s + 2 + 1) with (pc s + 3) by lia. by apply Hbyte. }
  (* the POP *)
  assert (is_Some (getitem regs1 r')) as Hvalid.
  { destruct Hrng as [[_ Hr7]|[_ ->]]; [|eauto].
    apply low_register_is_Some; [done|lia]. }
  destruct (proj2 (setitem_is_Some regs1 r' pushed) Hvalid) as [regs2 Hregs2].
  pose proof (setitem_length _ _ _ _ Hregs2) as Hlen2.
  assert (getitem regs2 sp = Some (top - 1)) as Htop2.
  { destruct Hrng as [[_ Hr7]|[Hr7 ->]].
    - rewrite (getitem_setitem_ne _ _ _ _ _ Hregs2); [done|].
      apply low_register_not_sp; [done|lia].
    - unfold sp. rewrite (getitem_setitem_eq _ _ _ _ Hregs2). subst pushed.
      by rewrite bool_decide_true by done. }
  destruct (proj2 (setitem_is_Some regs2 sp (top - 1 + 1))) as [regs3 Hregs3]; [eauto|].
  set (s2 := mkCPU regs3 m1 (pc s + 2 + 2) (fl s)).
  assert (step s1 = Ok tt s2 []) as Hstep2.
  { rewrite (step_one_operand s1 POP r') by done.
    rewrite dispatch_POP.
    eapply (pop_run _ s1 r' (top - 1) pushed regs2 (top - 1) regs3); try done.
    simpl. by eapply getitem_setitem_eq. }
  exists s2. split_and!.
  - simpl. rewrite (bind_silent _ _ _ _ _ Hstep1).
    by rewrite (bind_silent _ _ _ _ _ Hstep2).
  - simpl. destruct Hrng as [[Hr7 Hr7']|[-> ->]].
    + rewrite (getitem_setitem_ne _ _ _ _ _ Hregs3).
      * rewrite (getitem_setitem_eq _ _ _ _ Hregs2). subst pushed.
        by rewrite bool_decide_false by lia.
      * apply low_register_not_sp; [done|lia].
    + change 7 with sp. rewrite (getitem_setitem_eq _ _ _ _ Hregs3).
      assert (v = top) as -> by (unfold sp in Htop; congruence). f_equal. lia.
  - simpl. rewrite (getitem_setitem_eq _ _ _ _ Hregs3). f_equal. lia.
  - simpl. lia.
Qed.

Lemma push_pop_roundtrip_witness :
  (∃ s2, run_loop 2 push_pop_state = Ok tt s2 [] ∧
         getitem (register s2) 1 = Some 5 ∧
         getitem (register s2) sp = Some 0xf4 ∧
         pc s2 = pc push_pop_state + 4) ∧
  (∃ s2, run_loop 2 push_sp_pop_sp_state = Ok tt s2 [] ∧
         getitem (register s2) 7 = Some 0xf4 ∧
         getitem (register s2) sp = Some 0xf4 ∧
         pc s2 = pc push_sp_pop_sp_state + 4).
Proof.
  split.
  - apply (push_pop_roundtrip push_pop_state 0 1 5 0xf4);
      try reflexivity; try (by eexists); try (by vm_compute).
    left. lia.
  - apply (push_pop_roundtrip push_sp_pop_sp_state 7 7 0xf4 0xf4);
      try reflexivity; try (by eexists); try (by vm_compute).
    by right.
Defined.

(** ** CALL and RET *)

(** C5, as stated, fails when the return address is stored on the CALL's own
    operand byte: CALL reads its operand from memory after that store.  With
    CALL 0 at address 0, SP = 2, 10 in register 0 and 20 in register 2, the
    return address 2 overwrites memory[1], and PC becomes register[2] = 20
    instead of register[0] = 10. *)
Lemma call_operand_overwritten_counterexample :
  step call_collision_state
    = Ok tt (mkCPU [10; 0; 20; 0; 0; 0; 0; 1] ([CALL; 2] ++ replicate 254 0) 20 0) [] ∧
  getitem (memory call_collision_state) (pc call_collision_state + 1) = Some 0 ∧
  getitem (register call_collision_state) 0 = Some 10.
Proof. split_and!; reflexivity. Qed.

(** C5, amended: when the stack slot SP - 1 lies in memory and is not the
    operand byte of the CALL, CALL reg decrements SP, stores PC + 2 at
    memory[SP] and sets PC to register[reg] (read after the decrement, so
    for reg = 7 the new SP); RET, run in any later state that still has that
    SP and that stored word, sets PC to (address of the CALL) + 2 and puts SP
    back to its value before the CALL. *)
Theorem call_ret_roundtrip s reg top :
  getitem (memory s) (pc s) = Some CALL →
  getitem (memory s) (pc s + 1) = Some reg →
  getitem (register s) sp = Some top →
  is_Some (getitem (register s) reg) →
  is_Some (getitem (memory s) (top - 1)) →
  ¬ same_cell (memory s) (top - 1) (pc s + 1) →
  ∃ s1, step s = Ok tt s1 [] ∧
        getitem (register s1) sp = Some (top - 1) ∧
        getitem (memory s1) (top - 1) = Some (pc s + 2) ∧
        getitem (register s1) reg = Some (pc s1) ∧
        (¬ same_cell (register s) sp reg → getitem (register s) reg = Some (pc s1)) ∧
        ∀ s2, getitem (memory s2) (pc s2) = Some RET →
              getitem (register s2) sp = Some (top - 1) →
              getitem (memory s2) (top - 1) = Some (pc s + 2) →
              ∃ s3, step s2 = Ok tt s3 [] ∧
                    pc s3 = pc s + 2 ∧
                    getitem (register s3) sp = Some top.
Proof.
  intros Hcall Hreg Htop Hvalid Hslot Hnc.
  destruct (proj2 (setitem_is_Some (register s) sp (top - 1))) as [regs1 Hregs1]; [eauto|].
  destruct (proj2 (setitem_is_Some (memory s) (top - 1) (pc s + 2)) Hslot) as [m1 Hm1].
  assert (is_Some (getitem regs1 reg)) as [target Htarget].
  { apply getitem_is_Some. rewrite (setitem_length _ _ _ _ Hregs1).
    by apply getitem_is_Some. }
  exists (mkCPU regs1 m1 target (fl s)). split_and!.
  - rewrite (step_one_operand s CALL reg) by done.
    rewrite dispatch_CALL. eapply call_run; try done.
    by rewrite (getitem_setitem_ne _ _ _ _ _ Hm1).
  - simpl. by eapply getitem_setitem_eq.
  - simpl. by eapply getitem_setitem_eq.
  - done.
  - intros Hne. simpl. by rewrite <- (getitem_setitem_ne _ _ _ _ _ Hregs1).
  - intros s2 Hret Htop2 Haddr.
    destruct (proj2 (setitem_is_Some (register s2) sp (top - 1 + 1))) as [regs3 Hregs3];
      [eauto|].
    exists (mkCPU regs3 (memory s2) (pc s + 2) (fl s2)). split_and!.
    + rewrite (step_no_operand s2 RET) by done.
      rewrite dispatch_RET. by eapply ret_run.
    + done.
    + simpl. rewrite (getitem_setitem_eq _ _ _ _ Hregs3). f_equal. lia.
Qed.

Lemma call_ret_roundtrip_witness :
  ∃ s1, step call_state = Ok tt s1 [] ∧
        getitem (register s1) sp = Some (0xf4 - 1) ∧
        getitem (memory s1) (0xf4 - 1) = Some (pc call_state + 2) ∧
        getitem (register s1) 0 = Some (pc s1) ∧
        (¬ same_cell (register call_state) sp 0 →
         getitem (register call_state) 0 = Some (pc s1)) ∧
        ∀ s2, getitem (memory s2) (pc s2) = Some RET →
              getitem (register s2) sp = Some (0xf4 - 1) →
              getitem (memory s2) (0xf4 - 1) = Some (pc call_state + 2) →
              ∃ s3, step s2 = Ok tt s3 [] ∧
                    pc s3 = pc call_state + 2 ∧
                    getitem (register s3) sp = Some 0xf4.
Proof.
  apply (call_ret_roundtrip call_state 0 0xf4);
    try reflexivity; try (by eexists); by vm_compute.
Defined.

(** The concrete round trip: CALL 0 at address 0 with 10 in register 0 and
    RET at address 10 comes back to address 2 with SP restored. *)
Example call_then_ret :
  ∃ m, run_loop 2 call_state = Ok tt (mkCPU (register call_state) m 2 0) [].
Proof. eexists. reflexivity. Qed.

(** ** Printing *)

(** [str] writes the decimal numeral of the integer: reading the text back
    as a decimal number gives the integer. *)
Lemma str_decimal z : Z.of_int <$> NilZero.int_of_string (str z) = Some z.
Proof.
  unfold str. rewrite NilZero.isi.
  - simpl. f_equal. apply DecimalZ.of_to.
  - destruct z; simpl; try done.
    intros [= H]. by apply DecimalPos.Unsigned.to_uint_nonnil in H.
  - destruct z; simpl; try done.
    intros [= H]. by apply DecimalPos.Unsigned.to_uint_nonnil in H.
Qed.

Example str_examples : str 17 = "17" ∧ str 0 = "0" ∧ str (-5) = "-5" ∧ str 300 = "300".
Proof. split_and!; reflexivity. Qed.

(** ** The loop *)

Lemma operand_count_bits ir :
  operand_count ir = 2 * Z.b2z (Z.testbit ir 7) + Z.b2z (Z.testbit ir 6).
Proof.
  unfold operand_count. change 3 with (Z.ones 2).
  rewrite Z.land_ones by lia. change (2 ^ 2) with (2 * 2).
  rewrite Z.rem_mul_r by lia.
  rewrite <- Z.bit0_mod.
  replace (Z.shiftr ir 6 / 2) with (Z.shiftr ir 6 / 2 ^ 1) by (f_equal).
  rewrite <- Z.testbit_spec' by lia.
  rewrite !Z.shiftr_spec by lia. change (0 + 6) with 6. change (1 + 6) with 7. lia.
Qed.

Lemma operand_count_range ir : 0 ≤ operand_count ir ≤ 3.
Proof.
  rewrite operand_count_bits.
  destruct (Z.testbit ir 7), (Z.testbit ir 6); simpl; lia.
Qed.

Lemma registered_opcodes ir h :
  branchtable !! ir = Some h →
  ir ∈ [JEQ; JNE; JMP; RET; CALL; POP; PUSH; CMP; ADD; MUL; PRN; LDI; HLT].
Proof.
  unfold branchtable. intros H.
  rewrite !elem_of_cons.
  repeat (rewrite lookup_insert in H; case_decide; [subst ir; auto 20|]).
  by rewrite lookup_empty in H.
Qed.

Lemma registered_operand_count ir h :
  branchtable !! ir = Some h → operand_count ir ≤ 2.
Proof.
  intros H. apply registered_opcodes in H.
  rewrite !elem_of_cons, elem_of_nil in H.
  repeat (destruct H as [->|H]; [by vm_compute|]). done.
Qed.

Lemma dispatch_unregistered s ir operands :
  branchtable !! ir = None →
  dispatch ir operands s = Ok tt s ["Instruction not found!"].
Proof. intros Hnone. unfold dispatch. by rewrite Hnone. Qed.

Lemma step_unregistered s ir :
  getitem (memory s) (pc s) = Some ir →
  branchtable !! ir = None →
  (∀ i, 1 ≤ i ≤ operand_count ir → is_Some (getitem (memory s) (pc s + i))) →
  step s = Ok tt s ["Instruction not found!"].
Proof.
  intros Hir Hnone Hread.
  destruct (readable_operands (memory s) (pc s + 1)
              (Z.to_nat (operand_count ir))) as (ops & Hlen & Hops).
  { intros j Hj. replace (pc s + 1 + Z.of_nat j) with (pc s + (1 + Z.of_nat j)) by lia.
    apply Hread. lia. }
  rewrite (step_dispatch s ir ops); [by apply dispatch_unregistered|done|done|].
  intros j Hj. apply Hops. lia.
Qed.

(** An iteration that returns to the state it started from is repeated for
    ever. *)
Lemma run_loop_stuck s line :
  step s = Ok tt s [line] → ∀ n, run_loop n s = Ok tt s (replicate n line).
Proof.
  intros Hstep. induction n as [|n IH]; [done|].
  simpl. unfold bind. by rewrite Hstep, IH.
Qed.

(** C3: the dispatch on a byte with no handler in the table prints the
    "Instruction not found!" line and changes nothing: PC, registers, flags
    and memory are the same.  So an iteration that fetches such a byte (its
    operand bytes, which the decode step reads before dispatching, lying in
    memory) is a no-op, and the loop repeats that iteration for ever: it is
    still running, in the same state, after any number of iterations. *)
Theorem unknown_opcode_is_noop s ir :
  branchtable !! ir = None →
  (∀ operands, dispatch ir operands s = Ok tt s ["Instruction not found!"]) ∧
  (getitem (memory s) (pc s) = Some ir →
   (∀ i, 1 ≤ i ≤ operand_count ir → is_Some (getitem (memory s) (pc s + i))) →
   step s = Ok tt s ["Instruction not found!"] ∧
   ∀ n, run_loop n s = Ok tt s (replicate n "Instruction not found!")).
Proof.
  intros Hnone. split.
  - intros operands. by apply dispatch_unregistered.
  - intros Hir Hread.
    pose proof (step_unregistered s ir Hir Hnone Hread) as Hstep.
    split; [done|]. by apply run_loop_stuck.
Qed.

Lemma unknown_opcode_is_noop_witness :
  (∀ operands, dispatch 0x40 operands unknown_opcode_state
               = Ok tt unknown_opcode_state ["Instruction not found!"]) ∧
  step unknown_opcode_state = Ok tt unknown_opcode_state ["Instruction not found!"] ∧
  ∀ n, run_loop n unknown_opcode_state
       = Ok tt unknown_opcode_state (replicate n "Instruction not found!").
Proof.
  destruct (unknown_opcode_is_noop unknown_opcode_state 0x40) as [Hdisp Hloop];
    [reflexivity|].
  split; [exact Hdisp|].
  apply Hloop; [reflexivity|].
  intros i Hi. change (operand_count 0x40) with 1 in Hi.
  assert (i = 1) as -> by lia. by eexists.
Defined.

(** A fresh machine holds 0 everywhere in memory and 0 has no handler: run
    without a program, it prints the line at every iteration. *)
Example empty_machine_spins n :
  run_loop n init = Ok tt init (replicate n "Instruction not found!").
Proof.
  apply run_loop_stuck. apply (step_unregistered init 0); [reflexivity..|].
  intros i Hi. change (operand_count 0) with 0 in Hi. lia.
Qed.

Lemma branchtable_entries ir handler :
  branchtable !! ir = Some handler ↔ (ir, handler) ∈ handlers.
Proof.
  unfold handlers. rewrite !elem_of_cons, elem_of_nil. split.
  - unfold branchtable. intros H.
    repeat (rewrite lookup_insert in H; case_decide;
            [subst ir; injection H as <-; auto 20|]).
    by rewrite lookup_empty in H.
  - intros H.
    repeat (destruct H as [[= -> ->]|H]; [reflexivity|]). done.
Qed.

(** C6, as stated, fails for a byte with bits 6 and 7 both set: the count is
    then 3 and the iteration reads PC+3 as well.  With 0xC0 at address 0 the
    operand list holds the three bytes at addresses 1, 2 and 3; with 0xC0 at
    address 253 the bytes at PC+1 and PC+2 are in memory, and the iteration
    still raises [IndexError], on the read of address 256. *)
Lemma operand_count_three_counterexample :
  operand_count 0xc0 = 3 ∧
  fetch_operands (Z.to_nat (operand_count 0xc0)) 1 [] three_operand_state
    = Ok [1; 2; 3] three_operand_state [] ∧
  getitem (memory three_operand_state) (pc three_operand_state + 3) = Some 3 ∧
  getitem (memory three_operand_edge_state) (pc three_operand_edge_state + 1) = Some 7 ∧
  getitem (memory three_operand_edge_state) (pc three_operand_edge_state + 2) = Some 9 ∧
  step three_operand_edge_state = Raise IndexError three_operand_edge_state [].
Proof. split_and!; reflexivity. Qed.

(** C6, amended: the operand count of an iteration is the 2-bit number (0 to
    3) made of bits 7 and 6 of the fetched byte.  When the bytes at PC+1 ...
    PC+count are in memory, the iteration reads exactly those, in address
    order and without changing the state (PC+3 included when the count is
    3), and the iteration is the call of the handler that the table holds for
    the fetched byte on that operand list; with no handler it prints the
    not-found line.  A read outside memory raises [IndexError] before any
    handler is called.  The table holds the thirteen entries of the
    constructor, all of count at most 2, so a handler receives the bytes at
    PC+1 and PC+2 at most. *)
Theorem operands_fetched_by_top_bits s ir :
  getitem (memory s) (pc s) = Some ir →
  operand_count ir = 2 * Z.b2z (Z.testbit ir 7) + Z.b2z (Z.testbit ir 6) ∧
  ((∀ i, 1 ≤ i ≤ operand_count ir → is_Some (getitem (memory s) (pc s + i))) →
   ∃ ops,
     Z.of_nat (length ops) = operand_count ir ∧
     (∀ j, (j < length ops)%nat →
           ops !! j = getitem (memory s) (pc s + 1 + Z.of_nat j)) ∧
     fetch_operands (Z.to_nat (operand_count ir)) 1 [] s = Ok ops s [] ∧
     (∀ handler : list Z → M unit, branchtable !! ir = Some handler → step s = handler ops s) ∧
     (branchtable !! ir = None → step s = Ok tt s ["Instruction not found!"])) ∧
  ((∃ i, 1 ≤ i ≤ operand_count ir ∧ getitem (memory s) (pc s + i) = None) →
   step s = Raise IndexError s []) ∧
  (∀ handler : list Z → M unit, branchtable !! ir = Some handler ↔ (ir, handler) ∈ handlers) ∧
  (∀ handler : list Z → M unit, branchtable !! ir = Some handler → operand_count ir ≤ 2).
Proof.
  intros Hir. pose proof (operand_count_range ir) as Hrange.
  split_and!.
  - apply operand_count_bits.
  - intros Hread.
    destruct (readable_operands (memory s) (pc s + 1)
                (Z.to_nat (operand_count ir))) as (ops & Hlen & Hops).
    { intros j Hj. replace (pc s + 1 + Z.of_nat j) with (pc s + (1 + Z.of_nat j)) by lia.
      apply Hread. lia. }
    assert (step s = dispatch ir ops s) as Hstep.
    { apply step_dispatch; [done|done|]. intros j Hj. apply Hops. lia. }
    exists ops. split_and!.
    + lia.
    + intros j Hj. apply Hops. lia.
    + apply (fetch_operands_Ok _ 1 [] s ops); [done|].
      intros j Hj. apply Hops. lia.
    + intros handler Hh. rewrite Hstep. unfold dispatch. by rewrite Hh.
    + intros Hnone. rewrite Hstep. unfold dispatch. by rewrite Hnone.
  - intros (i & Hi & Hnone). unfold step. exec. unfold ram_read. exec.
    apply bind_raise. apply fetch_operands_IndexError.
    exists (Z.to_nat (i - 1)). split; [lia|].
    rewrite <- Hnone. f_equal. lia.
  - intros handler. apply branchtable_entries.
  - apply registered_operand_count.
Qed.

Lemma operands_fetched_by_top_bits_witness :
  operand_count LDI = 2 * Z.b2z (Z.testbit LDI 7) + Z.b2z (Z.testbit LDI 6) ∧
  (∃ ops,
     Z.of_nat (length ops) = operand_count LDI ∧
     (∀ j, (j < length ops)%nat →
           ops !! j = getitem (memory ldi_prn_state) (pc ldi_prn_state + 1 + Z.of_nat j)) ∧
     fetch_operands (Z.to_nat (operand_count LDI)) 1 [] ldi_prn_state
       = Ok ops ldi_prn_state [] ∧
     (∀ handler : list Z → M unit, branchtable !! LDI = Some handler →
                 step ldi_prn_state = handler ops ldi_prn_state) ∧
     (branchtable !! LDI = None →
      step ldi_prn_state = Ok tt ldi_prn_state ["Instruction not found!"])) ∧
  ((∃ i, 1 ≤ i ≤ operand_count LDI ∧
         getitem (memory ldi_prn_state) (pc ldi_prn_state + i) = None) →
   step ldi_prn_state = Raise IndexError ldi_prn_state []) ∧
  (∀ handler : list Z → M unit, branchtable !! LDI = Some handler ↔ (LDI, handler) ∈ handlers) ∧
  (∀ handler : list Z → M unit, branchtable !! LDI = Some handler → operand_count LDI ≤ 2).
Proof.
  destruct (operands_fetched_by_top_bits ldi_prn_state LDI) as (Hbits & Hops & Hrest);
    [reflexivity|].
  split; [exact Hbits|]. split; [|exact Hrest].
  apply Hops. intros i Hi. change (operand_count LDI) with 2 in Hi.
  assert (i = 1 ∨ i = 2) as [->| ->] by lia; by eexists.
Defined.

Example operands_of_LDI :
  fetch_operands (Z.to_nat (operand_count LDI)) 1 [] ldi_prn_state
    = Ok [3; 200] ldi_prn_state [].
Proof. reflexivity. Qed.

Lemma handle_ldi_run s reg imm regs1 :
  setitem (register s) reg imm = Some regs1 →
  handle_ldi [reg; imm] s = Ok tt (mkCPU regs1 (memory s) (pc s + 3) (fl s)) [].
Proof.
  intros Hregs. unfold handle_ldi. do 4 exec. done.
Qed.

Lemma handle_prn_run s reg v :
  getitem (register s) reg = Some v →
  handle_prn [reg] s = Ok tt (set_pc (pc s + 2) s) [str v].
Proof.
  intros Hv. unfold handle_prn. do 2 exec.
  unfold bind, print, get_pc, put_pc. done.
Qed.

(** C8: for every register index reg and every immediate imm, LDI reg imm
    followed by PRN reg prints exactly one line, the decimal numeral of imm,
    and leaves PC five bytes after the LDI. *)
Theorem ldi_prn_prints_immediate s reg imm :
  getitem (memory s) (pc s) = Some LDI →
  getitem (memory s) (pc s + 1) = Some reg →
  getitem (memory s) (pc s + 2) = Some imm →
  getitem (memory s) (pc s + 3) = Some PRN →
  getitem (memory s) (pc s + 4) = Some reg →
  is_Some (getitem (register s) reg) →
  ∃ s2, run_loop 2 s = Ok tt s2 [str imm] ∧
        Z.of_int <$> NilZero.int_of_string (str imm) = Some imm ∧
        pc s2 = pc s + 5 ∧
        getitem (register s2) reg = Some imm.
Proof.
  intros Hldi Hreg Himm Hprn Hreg' Hvalid.
  destruct (proj2 (setitem_is_Some (register s) reg imm) Hvalid) as [regs1 Hregs1].
  pose proof (getitem_setitem_eq _ _ _ _ Hregs1) as Hget.
  set (s1 := mkCPU regs1 (memory s) (pc s + 3) (fl s)).
  assert (step s = Ok tt s1 []) as Hstep1.
  { rewrite (step_two_operands s LDI reg imm) by done.
    rewrite dispatch_LDI. by apply handle_ldi_run. }
  assert (step s1 = Ok tt (set_pc (pc s + 3 + 2) s1) [str imm]) as Hstep2.
  { rewrite (step_one_operand s1 PRN reg); [|done|done|].
    - rewrite dispatch_PRN. by apply handle_prn_run.
    - simpl. by replace (pc s + 3 + 1) with (pc s + 4) by lia. }
  exists (set_pc (pc s + 3 + 2) s1). split_and!.
  - simpl. rewrite (bind_silent _ _ _ _ _ Hstep1).
    unfold bind. by rewrite Hstep2.
  - apply str_decimal.
  - simpl. lia.
  - done.
Qed.

Lemma ldi_prn_prints_immediate_witness :
  ∃ s2, run_loop 2 ldi_prn_state = Ok tt s2 [str 200] ∧
        Z.of_int <$> NilZero.int_of_string (str 200) = Some 200 ∧
        pc s2 = pc ldi_prn_state + 5 ∧
        getitem (register s2) 3 = Some 200.
Proof.
  apply (ldi_prn_prints_immediate ldi_prn_state 3 200);
    try reflexivity; by eexists.
Defined.

(** Loading the addition program into a fresh machine and running it prints
    17 and leaves through [sys.exit(1)] in the fifth iteration. *)
Example add_program_prints_17 :
  load add_program init = Ok tt add_program_loaded [] ∧
  ∃ s', run 5 add_program_loaded
          = Raise (SystemExit 1) s' ["Running CPU..."; "17"; "Halted!"] ∧
        getitem (register s') 0 = Some 17.
Proof.
  split; [by vm_compute|].
  eexists. split; [vm_compute; reflexivity | by vm_compute].
Qed.

(** Reading the operands changes nothing and prints nothing. *)
Lemma fetch_operands_state n : ∀ i acc s ops s1 out,
  fetch_operands n i acc s = Ok ops s1 out → s1 = s ∧ out = [].
Proof.
  induction n as [|n IH]; intros i acc s ops s1 out; simpl.
  - by intros [= _ <- <-].
  - unfold bind at 1. simpl. unfold bind at 1, ram_read, mem_get.
    destruct (getitem (memory s) (pc s + i)) as [v|]; [|done].
    destruct (fetch_operands n (i + 1) (acc ++ [v]) s) as [ops' s' out'|] eqn:E; [|done].
    apply IH in E as [-> ->]. by intros [= _ <- <-].
Qed.

(** ** Effects: composition rules *)

Section effects.
Context (Q : effect) `{!Sequential Q}.

Lemma always_bind {A B} (m : M A) (k : A → M B) :
  always Q m → (∀ a, always Q (k a)) → always Q (bind m k).
Proof.
  intros Hm Hk s. unfold run_effect, bind. specialize (Hm s). unfold run_effect in Hm.
  destruct (m s) as [a s1 o1|e s1 o1]; [|done].
  specialize (Hk a s1). unfold run_effect in Hk.
  destruct (k a s1); by eapply seq_then.
Qed.

Lemma run_effect_bind {A B} (m : M A) (k : A → M B) s :
  run_effect Q m s →
  (∀ a s1 out, m s = Ok a s1 out → run_effect Q (k a) s1) →
  run_effect Q (bind m k) s.
Proof.
  intros Hm Hk. unfold run_effect, bind in *.
  destruct (m s) as [a s1 o1|e s1 o1]; [|done].
  specialize (Hk a s1 o1 eq_refl).
  destruct (k a s1); by eapply seq_then.
Qed.

Lemma always_if {A} (b : bool) (m1 m2 : M A) :
  always Q m1 → always Q m2 → always Q (if b then m1 else m2).
Proof. by destruct b. Qed.

Lemma always_pure {A} (a : A) : always Q (pure a).
Proof. intros s. apply seq_skip. Qed.

Lemma always_reg_get i : always Q (reg_get i).
Proof.
  intros s. unfold run_effect, reg_get.
  destruct (getitem _ _); [apply seq_skip | apply seq_index].
Qed.

Lemma always_mem_get i : always Q (mem_get i).
Proof.
  intros s. unfold run_effect, mem_get.
  destruct (getitem _ _); [apply seq_skip | apply seq_index].
Qed.

Lemma always_operand ops i : always Q (operand ops i).
Proof.
  intros s. unfold run_effect, operand.
  destruct (getitem _ _); [apply seq_skip | apply seq_index].
Qed.

Lemma always_get_pc : always Q get_pc.
Proof. intros s. apply seq_skip. Qed.

Lemma always_get_fl : always Q get_fl.
Proof. intros s. apply seq_skip. Qed.

Lemma always_reg_set i v :
  (∀ s r, length r = length (register s) → Q s (set_register r s) [] None) →
  always Q (reg_set i v).
Proof.
  intros H s. unfold run_effect, reg_set.
  destruct (setitem _ _ _) eqn:E; [|apply seq_index].
  apply H. by eapply setitem_length.
Qed.

Lemma always_mem_set i v :
  (∀ s m, length m = length (memory s) → Q s (set_memory m s) [] None) →
  always Q (mem_set i v).
Proof.
  intros H s. unfold run_effect, mem_set.
  destruct (setitem _ _ _) eqn:E; [|apply seq_index].
  apply H. by eapply setitem_length.
Qed.

Lemma always_put_pc p : (∀ s, Q s (set_pc p s) [] None) → always Q (put_pc p).
Proof. intros H s. apply H. Qed.

Lemma always_put_fl f : (∀ s, Q s (set_fl f s) [] None) → always Q (put_fl f).
Proof. intros H s. apply H. Qed.

Lemma always_print line : (∀ s, Q s s [line] None) → always Q (print line).
Proof. intros H s. apply H. Qed.

Lemma always_fetch_operands n : ∀ i acc, always Q (fetch_operands n i acc).
Proof.
  induction n as [|n IH]; intros i acc; simpl; [apply always_pure|].
  apply always_bind; [apply always_get_pc|intros p].
  apply always_bind; [apply always_mem_get|intros v]. apply IH.
Qed.

(** An iteration has the effect its dispatch has, whatever is fetched. *)
Lemma run_effect_step s :
  (∀ ir operands, getitem (memory s) (pc s) = Some ir →
                  run_effect Q (dispatch ir operands) s) →
  run_effect Q step s.
Proof.
  intros Hd. unfold step.
  apply run_effect_bind; [apply always_get_pc|]. intros p s1 o [= <- <- <-].
  apply run_effect_bind; [apply always_mem_get|]. intros ir s1 o Hir.
  unfold ram_read, mem_get in Hir.
  destruct (getitem (memory s) (pc s)) as [ir'|] eqn:E; [|done].
  injection Hir as <- <- <-.
  apply run_effect_bind; [apply always_fetch_operands|]. intros ops s1 o Hops.
  apply fetch_operands_state in Hops as [-> _]. by apply Hd.
Qed.

Lemma always_run_loop fuel : always Q step → always Q (run_loop fuel).
Proof.
  intros Hstep. induction fuel as [|fuel IH]; simpl; [apply always_pure|].
  by apply always_bind.
Qed.

End effects.

#[local] Instance keeps_sequential {X} (f : cpu → X) : Sequential (keeps f).
Proof. split; unfold keeps; intros; congruence. Qed.

#[local] Instance silent_sequential : Sequential silent.
Proof. split; unfold silent; intros; by simplify_list_eq. Qed.

#[local] Instance faults_only_sequential : Sequential faults_only.
Proof. split; unfold faults_only; intros; auto. Qed.

#[local] Instance leaves_sequential : Sequential leaves_by_fault_or_hlt.
Proof.
  split; unfold leaves_by_fault_or_hlt; intros; auto.
  destruct H0 as [?|[?|(? & ? & Hlast)]]; auto.
  right; right. split_and!; try done.
  rewrite last_app. by rewrite Hlast.
Qed.

Lemma always_raise (Q : effect) {A} e : (∀ s, Q s s [] (Some e)) → always Q (@raise A e).
Proof. intros H s. apply H. Qed.

Lemma always_weaken {A} (Q Q' : effect) (m : M A) :
  (∀ s s' out x, Q s s' out x → Q' s s' out x) → always Q m → always Q' m.
Proof. intros H Hm s. specialize (Hm s). unfold run_effect in *. destruct (m s); auto. Qed.

(** What a run of [m] from [s] ends with has effect [Q]. *)
Lemma run_effect_state {A} {X} (f : cpu → X) (m : M A) s :
  run_effect (keeps f) m s → f (state_of (m s)) = f s.
Proof. unfold run_effect, keeps. by destruct (m s). Qed.

Lemma run_effect_silent {A} (m : M A) s :
  run_effect silent m s → output_of (m s) = [].
Proof. unfold run_effect, silent. by destruct (m s). Qed.

(** Case analysis on the dispatch: the thirteen table entries, or none. *)
Lemma dispatch_cases (P : M unit → Prop) ir operands :
  (branchtable !! ir = None → P (print "Instruction not found!")) →
  (ir = HLT → P (handle_hlt operands)) →
  (ir = LDI → P (handle_ldi operands)) →
  (ir = PRN → P (handle_prn operands)) →
  (ir = MUL → P (handle_mul operands)) →
  (ir = ADD → P (handle_add operands)) →
  (ir = CMP → P (handle_cmp operands)) →
  (ir = PUSH → P (push operands)) →
  (ir = POP → P (pop operands)) →
  (ir = CALL → P (call operands)) →
  (ir = RET → P (ret operands)) →
  (ir = JMP → P (jmp operands)) →
  (ir = JNE → P (jne operands)) →
  (ir = JEQ → P (jeq operands)) →
  P (dispatch ir operands).
Proof.
  intros Hnone. intros.
  destruct (branchtable !! ir) as [h|] eqn:E.
  - unfold dispatch. rewrite E. unfold branchtable in E.
    repeat (rewrite lookup_insert in E; case_decide;
            [injection E as <-; auto|]).
    by rewrite lookup_empty in E.
  - unfold dispatch. rewrite E. auto.
Qed.

Ltac effect_side :=
  solve [ intros; unfold keeps, silent, faults_only; simpl; auto ].

Ltac effects_by known :=
  repeat first
    [ lazymatch goal with |- Sequential _ => apply _ end
    | known
    | apply always_pure | apply always_reg_get | apply always_mem_get
    | apply always_operand | apply always_get_pc | apply always_get_fl
    | apply always_reg_set; [|effect_side]
    | apply always_mem_set; [|effect_side]
    | apply always_put_pc; effect_side
    | apply always_put_fl; effect_side
    | apply always_print; effect_side
    | apply always_raise; effect_side
    | apply always_if
    | apply always_bind; [ .. | intros ?] ].

Ltac effects := effects_by fail.

Ltac unfold_handlers :=
  unfold jeq, jne, jmp, ret, call, pop, push, handle_cmp, handle_add,
    handle_mul, handle_prn, handle_ldi, handle_hlt.

(** ** What an instruction leaves alone *)

Lemma alu_keeps_memory op a b : always (keeps memory) (alu op a b).
Proof. unfold alu. effects. Qed.

Lemma alu_keeps_pc op a b : always (keeps pc) (alu op a b).
Proof. unfold alu. effects. Qed.

Lemma alu_silent op a b : always silent (alu op a b).
Proof. unfold alu. effects. Qed.

Lemma alu_add_keeps_fl a b : always (keeps fl) (alu "ADD" a b).
Proof. unfold alu. rewrite bool_decide_true by done. effects. Qed.

Lemma alu_mul_keeps_fl a b : always (keeps fl) (alu "MUL" a b).
Proof.
  unfold alu. rewrite bool_decide_false by done. rewrite bool_decide_true by done.
  effects.
Qed.

Lemma alu_cmp_keeps_register a b : always (keeps register) (alu "CMP" a b).
Proof.
  unfold alu. rewrite !bool_decide_false by done. rewrite bool_decide_true by done.
  effects.
Qed.

Create HintDb effects.
#[local] Hint Resolve alu_keeps_memory alu_keeps_pc alu_silent alu_add_keeps_fl
  alu_mul_keeps_fl alu_cmp_keeps_register : effects.

Ltac handler_effects :=
  unfold_handlers; effects_by ltac:(solve [auto 1 with effects nocore]).

(** The loop body, with the reads of the instruction and of its operands
    made explicit. *)
Lemma step_unfold s :
  step s =
    match getitem (memory s) (pc s) with
    | None => Raise IndexError s []
    | Some ir =>
        match fetch_operands (Z.to_nat (operand_count ir)) 1 [] s with
        | Ok operands _ _ => dispatch ir operands s
        | Raise e s1 out => Raise e s1 out
        end
    end.
Proof.
  unfold step, ram_read. unfold bind at 1. simpl. unfold bind at 1, mem_get.
  destruct (getitem (memory s) (pc s)) as [ir|]; [|done].
  unfold bind.
  destruct (fetch_operands _ 1 [] s) as [ops s1 o|e s1 o] eqn:E; [|done].
  apply fetch_operands_state in E as [-> ->]. by destruct (dispatch ir ops s).
Qed.

(** X1: the flags word is written by CMP alone: an iteration that fetches any
    other byte (or fails) ends with FL as it was. *)
Theorem step_keeps_flags s :
  getitem (memory s) (pc s) ≠ Some CMP →
  fl (state_of (step s)) = fl s.
Proof.
  intros Hne. apply run_effect_state, run_effect_step; [apply _|].
  intros ir ops Hir. assert (ir ≠ CMP) as Hcmp by congruence.
  cut (always (keeps fl) (dispatch ir ops)); [by intros H|].
  apply dispatch_cases; intros; try done; handler_effects.
Qed.

Lemma step_keeps_flags_witness :
  fl (state_of (step ldi_prn_state)) = fl ldi_prn_state.
Proof. apply (step_keeps_flags ldi_prn_state). by vm_compute. Defined.

(** X2: memory is written by PUSH and CALL alone: an iteration that fetches
    any other byte (or fails) ends with every memory cell as it was, so a
    program has no way to store into memory except through the stack. *)
Theorem step_keeps_memory s :
  getitem (memory s) (pc s) ≠ Some PUSH →
  getitem (memory s) (pc s) ≠ Some CALL →
  memory (state_of (step s)) = memory s.
Proof.
  intros Hpush Hcall. apply run_effect_state, run_effect_step; [apply _|].
  intros ir ops Hir.
  assert (ir ≠ PUSH ∧ ir ≠ CALL) as [??] by (split; congruence).
  cut (always (keeps memory) (dispatch ir ops)); [by intros H'|].
  apply dispatch_cases; intros; try done; handler_effects.
Qed.

Lemma step_keeps_memory_witness :
  memory (state_of (step ldi_prn_state)) = memory ldi_prn_state.
Proof. apply (step_keeps_memory ldi_prn_state); by vm_compute. Defined.

(** X3: the register file is written by LDI, MUL, ADD, PUSH, POP, CALL and
    RET alone: HLT, PRN, CMP, the three jumps and a byte without handler
    leave all eight registers as they were. *)
Theorem step_keeps_registers s :
  getitem (memory s) (pc s) ∉ Some <$> [LDI; MUL; ADD; PUSH; POP; CALL; RET] →
  register (state_of (step s)) = register s.
Proof.
  intros Hne. apply run_effect_state, run_effect_step; [apply _|].
  intros ir ops Hir. rewrite Hir in Hne.
  assert (ir ∉ [LDI; MUL; ADD; PUSH; POP; CALL; RET]) as Hir'.
  { intros Hin. apply Hne. by apply list_elem_of_fmap_2. }
  rewrite !not_elem_of_cons in Hir'. destruct Hir' as (?&?&?&?&?&?&?&_).
  cut (always (keeps register) (dispatch ir ops)); [by intros H'|].
  apply dispatch_cases; intros; try done; handler_effects.
Qed.

Lemma step_keeps_registers_witness :
  register (state_of (step cmp_state)) = register cmp_state.
Proof.
  apply (step_keeps_registers cmp_state).
  rewrite list_elem_of_fmap. intros (op & Hop & Hin).
  rewrite !elem_of_cons, elem_of_nil in Hin.
  destruct Hin as [->|[->|[->|[->|[->|[->|[->|[]]]]]]]]; by vm_compute in Hop.
Defined.

(** ** What an iteration prints *)

Lemma handle_prn_output ops s : (length (output_of (handle_prn ops s)) ≤ 1)%nat.
Proof.
  unfold handle_prn, bind, operand, reg_get.
  destruct (getitem ops 0) as [r|]; [|simpl; lia]. simpl.
  destruct (getitem (register s) r) as [v|]; simpl; lia.
Qed.

(** X4: an iteration prints at most one line, and none at all unless the byte
    fetched is PRN, HLT or a byte without handler: the other eleven
    instructions, and every failed read, are silent. *)
Theorem step_output s :
  (length (output_of (step s)) ≤ 1)%nat ∧
  (∀ ir, getitem (memory s) (pc s) = Some ir →
         is_Some (branchtable !! ir) → ir ≠ PRN → ir ≠ HLT →
         output_of (step s) = []).
Proof.
  split.
  - rewrite step_unfold.
    destruct (getitem (memory s) (pc s)) as [ir|]; [|simpl; lia].
    destruct (fetch_operands _ 1 [] s) as [ops s1 o|e s1 o] eqn:E.
    + pattern (dispatch ir ops). apply dispatch_cases; intros;
        try solve [ rewrite run_effect_silent; [simpl; lia|];
                    apply (always_weaken silent silent); [done|handler_effects] ].
      * unfold print. simpl. lia.
      * unfold handle_hlt, bind, print, raise. simpl. lia.
      * apply handle_prn_output.
    + pose proof (always_fetch_operands silent (Z.to_nat (operand_count ir)) 1 [] s) as H.
      unfold run_effect, silent in H. rewrite E in H. subst o. simpl. lia.
  - intros ir Hir [h Hh] Hprn Hhlt.
    apply run_effect_silent, run_effect_step; [apply _|].
    intros ir' ops Hir'. assert (ir' = ir) as -> by congruence.
    cut (always silent (dispatch ir ops)); [by intros H'|].
    apply dispatch_cases; intros; try done; try congruence; handler_effects.
Qed.

Lemma step_output_witness :
  (length (output_of (step cmp_state)) ≤ 1)%nat ∧
  output_of (step cmp_state) = [].
Proof.
  destruct (step_output cmp_state) as [Hle Hsilent].
  split; [exact Hle|].
  apply (Hsilent CMP); [reflexivity | by eexists | by vm_compute | by vm_compute].
Defined.

(** ** PC after an instruction that is not a jump *)

Lemma pc_by_end k : always (pc_by k) (p <- get_pc;; put_pc (p + k)).
Proof. by intros s. Qed.

Lemma pc_by_bind {A} k (m : M A) (k' : A → M unit) :
  always (keeps pc) m → (∀ a, always (pc_by k) (k' a)) → always (pc_by k) (bind m k').
Proof.
  intros Hm Hk s. specialize (Hm s). unfold run_effect, bind, keeps, pc_by in *.
  destruct (m s) as [a s1 o1|e s1 o1]; [|done].
  specialize (Hk a s1). unfold run_effect in Hk.
  destruct (k' a s1); [|done]. intros _. rewrite Hk by done. by rewrite Hm.
Qed.

Ltac pc_effects :=
  unfold_handlers;
  repeat first
    [ apply pc_by_end
    | apply pc_by_bind; [handler_effects | intros ?] ].

(** X5: the seven instructions that are not jumps (LDI, PRN, MUL, ADD, CMP,
    PUSH, POP) leave PC on the byte after their last operand: the increment
    written in each handler agrees with the operand count encoded in bits 6-7
    of its opcode. *)
Theorem step_advances_pc s ir s' out :
  getitem (memory s) (pc s) = Some ir →
  ir ∈ [LDI; PRN; MUL; ADD; CMP; PUSH; POP] →
  step s = Ok tt s' out →
  pc s' = pc s + 1 + operand_count ir.
Proof.
  intros Hir Hin. rewrite step_unfold, Hir.
  destruct (fetch_operands _ 1 [] s) as [ops s1 o|e s1 o] eqn:E; [|done].
  intros Hrun.
  cut (always (pc_by (1 + operand_count ir)) (dispatch ir ops)).
  { intros H. specialize (H s). unfold run_effect, pc_by in H.
    rewrite Hrun in H. rewrite H by done. lia. }
  rewrite !elem_of_cons, elem_of_nil in Hin.
  destruct Hin as [->|[->|[->|[->|[->|[->|[->|[]]]]]]]];
    first [ rewrite dispatch_LDI | rewrite dispatch_PRN | rewrite dispatch_PUSH
          | rewrite dispatch_POP | change (dispatch MUL ops) with (handle_mul ops)
          | change (dispatch ADD ops) with (handle_add ops)
          | change (dispatch CMP ops) with (handle_cmp ops) ];
    pc_effects.
Qed.

Lemma step_advances_pc_witness :
  pc (set_pc 3 (set_register [0; 0; 0; 200; 0; 0; 0; 0xf4] ldi_prn_state))
    = pc ldi_prn_state + 1 + operand_count LDI.
Proof.
  apply (step_advances_pc ldi_prn_state LDI _ []); [reflexivity | | reflexivity].
  rewrite !elem_of_cons. by left.
Defined.

(** ** Failures of the ALU and ways out of the loop *)

Lemma alu_reads_first op ra rb :
  op ∈ ["ADD"; "MUL"; "CMP"] →
  ∃ k : Z → Z → M unit, alu op ra rb = (a <- reg_get ra;; b <- reg_get rb;; k a b).
Proof.
  intros Hop. rewrite !elem_of_cons, elem_of_nil in Hop.
  unfold alu. destruct Hop as [->|[->|[->|[]]]]; repeat case_bool_decide; try done;
    by eexists (λ a b, _).
Qed.

Lemma failed_reads ra rb (k : Z → Z → M unit) s :
  getitem (register s) ra = None ∨ getitem (register s) rb = None →
  (a <- reg_get ra;; b <- reg_get rb;; k a b) s = Raise IndexError s [].
Proof.
  intros Hbad. unfold bind at 1, reg_get at 1.
  destruct (getitem (register s) ra) as [va|] eqn:Ea; [|done].
  destruct Hbad as [?|Hb]; [done|].
  unfold bind, reg_get. by rewrite Hb.
Qed.

(** X6: with a tag among "ADD", "MUL", "CMP", a subscript outside the
    register file makes the ALU raise [IndexError] before it has written
    anything: registers, flags, memory and PC are as they were. *)
Theorem alu_index_error op ra rb s :
  op ∈ ["ADD"; "MUL"; "CMP"] →
  getitem (register s) ra = None ∨ getitem (register s) rb = None →
  alu op ra rb s = Raise IndexError s [].
Proof.
  intros Hop Hbad. destruct (alu_reads_first op ra rb Hop) as [k ->].
  by apply failed_reads.
Qed.

Lemma alu_index_error_witness : alu "ADD" 0 8 regs_200_100 = Raise IndexError regs_200_100 [].
Proof.
  apply (alu_index_error "ADD" 0 8 regs_200_100); [|by right].
  rewrite !elem_of_cons. by left.
Defined.

Lemma alu_faults_only op a b :
  op ∈ ["ADD"; "MUL"; "CMP"] → always faults_only (alu op a b).
Proof.
  intros Hop s. unfold run_effect, faults_only.
  destruct (getitem (register s) a) as [va|] eqn:Ea;
    [destruct (getitem (register s) b) as [vb|] eqn:Eb|].
  - rewrite !elem_of_cons, elem_of_nil in Hop. destruct Hop as [->|[->|[->|[]]]].
    + destruct (alu_add_exact s a b va vb Ea Eb) as (r' & _ & ->). by left.
    + destruct (alu_mul_exact s a b va vb Ea Eb) as (r' & _ & ->). by left.
    + rewrite (alu_cmp_run s a b va vb Ea Eb). by left.
  - destruct (alu_reads_first op a b Hop) as [k ->].
    rewrite failed_reads by auto. by right.
  - destruct (alu_reads_first op a b Hop) as [k ->].
    rewrite failed_reads by auto. by right.
Qed.

Lemma handler_faults_only ir handler operands :
  branchtable !! ir = Some handler → ir ≠ HLT → always faults_only (handler operands).
Proof.
  intros Hh Hne.
  assert (∀ op a b, op ∈ ["ADD"; "MUL"; "CMP"] → always faults_only (alu op a b)) as Halu
    by apply alu_faults_only.
  unfold branchtable in Hh.
  repeat (rewrite lookup_insert in Hh; case_decide;
          [injection Hh as <-; try done; unfold_handlers;
           effects_by ltac:(apply Halu; rewrite !elem_of_cons; auto)|]).
  by rewrite lookup_empty in Hh.
Qed.

Lemma step_leaves_by_fault_or_hlt : always leaves_by_fault_or_hlt step.
Proof.
  intros s. apply run_effect_step; [apply _|]. intros ir ops Hir.
  unfold dispatch. destruct (branchtable !! ir) as [h|] eqn:E.
  - destruct (decide (ir = HLT)) as [->|Hne].
    + assert (branchtable !! HLT = Some handle_hlt) as E' by reflexivity.
      assert (h = handle_hlt) as -> by congruence.
      unfold run_effect, leaves_by_fault_or_hlt. simpl. auto 10.
    + pose proof (handler_faults_only ir h ops E Hne s) as H.
      unfold run_effect, faults_only, leaves_by_fault_or_hlt in *.
      destruct (h ops s); destruct H; auto.
  - unfold run_effect, leaves_by_fault_or_hlt. simpl. auto.
Qed.

(** X7: the "Unsupported ALU operation" exception never leaves the loop,
    whatever the program: the dispatch table calls the ALU with its three
    tags only and the comparison of CMP always finds its case.  And a
    [SystemExit] that leaves the loop is always the [sys.exit(1)] of HLT:
    its status is 1, PC is on a HLT byte and "Halted!" is the last line
    printed. *)
Theorem alu_exception_never_leaves_loop fuel s e s' out :
  run_loop fuel s = Raise e s' out →
  e ≠ unsupported ∧
  (∀ code, e = SystemExit code →
           code = 1 ∧ getitem (memory s') (pc s') = Some HLT ∧
           last out = Some "Halted!").
Proof.
  intros Hrun.
  pose proof (always_run_loop leaves_by_fault_or_hlt fuel
                step_leaves_by_fault_or_hlt s) as H.
  unfold run_effect, leaves_by_fault_or_hlt in H. rewrite Hrun in H.
  destruct H as [?|[[= ->]|([= ->] & ? & ?)]]; [done|by split|].
  split; [done|]. by intros code [= <-].
Qed.

Lemma alu_exception_never_leaves_loop_witness :
  SystemExit 1 ≠ unsupported ∧
  (∀ code, SystemExit 1 = SystemExit code →
           code = 1 ∧
           getitem (memory (set_pc 11 (set_register [17; 9; 0; 0; 0; 0; 0; 0xf4]
                                         add_program_loaded)))
                   (pc (set_pc 11 (set_register [17; 9; 0; 0; 0; 0; 0; 0xf4]
                                     add_program_loaded)))
             = Some HLT ∧
           last ["17"; "Halted!"] = Some "Halted!").
Proof.
  apply (alu_exception_never_leaves_loop 5 add_program_loaded). by vm_compute.
Defined.

(** X8: an iteration that fetches HLT prints "Halted!" and leaves the loop
    through [sys.exit(1)] with the state untouched, whatever number of
    further iterations was allowed. *)
Theorem hlt_stops_the_loop s fuel :
  getitem (memory s) (pc s) = Some HLT →
  run_loop (S fuel) s = Raise (SystemExit 1) s ["Halted!"].
Proof.
  intros Hir. simpl. apply bind_raise.
  by rewrite (step_no_operand s HLT).
Qed.

Lemma hlt_stops_the_loop_witness :
  run_loop 8 (set_pc 11 add_program_loaded)
    = Raise (SystemExit 1) (set_pc 11 add_program_loaded) ["Halted!"].
Proof. apply (hlt_stops_the_loop (set_pc 11 add_program_loaded) 7). reflexivity. Defined.

(** ** The stack at the edges of memory *)

Lemma shape_sp s : shape s → ∀ v, setitem (register s) sp v = Some (<[7%nat := v]> (register s)).
Proof. intros [Hr _] v. unfold setitem. by rewrite Hr. Qed.

Lemma shape_sp_get s : shape s → is_Some (getitem (register s) sp).
Proof. intros Hs. by apply shape_register_index. Qed.

(** X9: the stack pointer is not checked against memory.  Below address 0
    the Python subscript wraps: PUSH with SP between -255 and 0 stores in
    cell 255 + SP, at the top of memory.  Further out (SP - 1 below -256 or
    above 255) PUSH raises [IndexError], after it has already decremented
    SP: memory and PC are as they were. *)
Theorem push_at_memory_edge ops s top r v :
  shape s →
  getitem (register s) sp = Some top →
  getitem (memory s) (pc s + 1) = Some r →
  getitem (<[7%nat := top - 1]> (register s)) r = Some v →
  (-255 ≤ top ≤ 0 →
   push ops s = Ok tt (mkCPU (<[7%nat := top - 1]> (register s))
                             (<[Z.to_nat (255 + top) := v]> (memory s))
                             (pc s + 2) (fl s)) []) ∧
  (top < -255 ∨ 256 < top →
   push ops s = Raise IndexError (set_register (<[7%nat := top - 1]> (register s)) s) []).
Proof.
  intros Hs Htop Hr Hv. pose proof (shape_sp s Hs (top - 1)) as Hregs.
  destruct Hs as [Hlr Hlm]. split.
  - intros Hrange. eapply push_run; try done.
    unfold setitem, py_index. rewrite Hlm.
    rewrite bool_decide_false by lia. rewrite bool_decide_true by lia.
    do 2 f_equal. lia.
  - intros Hrange. unfold push.
    pose proof (getitem_setitem_eq _ _ _ _ Hregs) as Htop1.
    do 6 exec. apply bind_raise. unfold mem_set, setitem, py_index. simpl.
    rewrite Hlm. by rewrite !bool_decide_false by lia.
Qed.

Lemma push_at_memory_edge_witness :
  (-255 ≤ 0 ≤ 0 →
   push [] (set_register [5; 0; 0; 0; 0; 0; 0; 0] push_pop_state)
     = Ok tt (mkCPU (<[7%nat := 0 - 1]> [5; 0; 0; 0; 0; 0; 0; 0])
                    (<[Z.to_nat (255 + 0) := 5]> (memory push_pop_state))
                    (pc push_pop_state + 2) (fl push_pop_state)) []) ∧
  (0 < -255 ∨ 256 < 0 →
   push [] (set_register [5; 0; 0; 0; 0; 0; 0; 0] push_pop_state)
     = Raise IndexError
         (set_register (<[7%nat := 0 - 1]> [5; 0; 0; 0; 0; 0; 0; 0])
            (set_register [5; 0; 0; 0; 0; 0; 0; 0] push_pop_state)) []).
Proof.
  apply (push_at_memory_edge [] (set_register [5; 0; 0; 0; 0; 0; 0; 0] push_pop_state) 0 0 5);
    [by split | reflexivity..].
Defined.

Example push_beyond_memory :
  push [] (set_register [5; 0; 0; 0; 0; 0; 0; 300] push_pop_state)
    = Raise IndexError (set_register [5; 0; 0; 0; 0; 0; 0; 299] push_pop_state) [].
Proof. reflexivity. Qed.

(** Storing in a cell the value it holds changes nothing. *)
Lemma setitem_same (l : list Z) i v : getitem l i = Some v → setitem l i v = Some l.
Proof.
  unfold getitem, setitem. destruct (py_index (length l) i) as [k|]; [|done].
  intros H. by rewrite list_insert_id.
Qed.

(** X10: POP r followed by PUSH r (r in 0..6) puts the popped word back where
    it was: memory and the stack pointer end as they were, register r holds
    the word, and PC is four bytes on.  No test guards POP: it reads whatever
    cell SP addresses. *)
Theorem pop_push_roundtrip s r top val :
  getitem (memory s) (pc s) = Some POP →
  getitem (memory s) (pc s + 1) = Some r →
  getitem (memory s) (pc s + 2) = Some PUSH →
  getitem (memory s) (pc s + 3) = Some r →
  0 ≤ r < 7 →
  getitem (register s) sp = Some top →
  getitem (memory s) top = Some val →
  ∃ regs, run_loop 2 s = Ok tt (mkCPU regs (memory s) (pc s + 4) (fl s)) [] ∧
          getitem regs r = Some val ∧
          getitem regs sp = Some top ∧
          ∀ j, ¬ same_cell (register s) r j → getitem regs j = getitem (register s) j.
Proof.
  intros Hpop Hr Hpush Hr' Hrng Htop Hval.
  pose proof (sp_in_range _ _ Htop) as Hlen.
  destruct (proj2 (setitem_is_Some (register s) r val)) as [regs1 Hregs1].
  { by apply low_register_is_Some. }
  pose proof (setitem_length _ _ _ _ Hregs1) as Hlen1.
  assert (getitem regs1 sp = Some top) as Htop1.
  { rewrite (getitem_setitem_ne _ _ _ _ _ Hregs1); [done|].
    by apply low_register_not_sp. }
  destruct (proj2 (setitem_is_Some regs1 sp (top + 1))) as [regs2 Hregs2]; [eauto|].
  pose proof (setitem_length _ _ _ _ Hregs2) as Hlen2.
  set (s1 := mkCPU regs2 (memory s) (pc s + 2) (fl s)).
  assert (step s = Ok tt s1 []) as Hstep1.
  { rewrite (step_one_operand s POP r) by done.
    rewrite dispatch_POP. by eapply pop_run. }
  destruct (proj2 (setitem_is_Some regs2 sp (top + 1 - 1))) as [regs3 Hregs3].
  { rewrite (getitem_setitem_eq _ _ _ _ Hregs2). eauto. }
  assert (getitem regs3 r = Some val) as Hr3.
  { rewrite (getitem_setitem_ne _ _ _ _ _ Hregs3), (getitem_setitem_ne _ _ _ _ _ Hregs2).
    - by eapply getitem_setitem_eq.
    - apply low_register_not_sp; [done|lia].
    - apply low_register_not_sp; [done|lia]. }
  assert (step s1 = Ok tt (mkCPU regs3 (memory s) (pc s + 2 + 2) (fl s)) []) as Hstep2.
  { rewrite (step_one_operand s1 PUSH r); [|done|done|].
    - rewrite dispatch_PUSH.
      eapply (push_run _ s1 r (top + 1) regs3 val (memory s)); try done.
      + simpl. by eapply getitem_setitem_eq.
      + simpl. by replace (pc s + 2 + 1) with (pc s + 3) by lia.
      + simpl. replace (top + 1 - 1) with top by lia. by apply setitem_same.
    - simpl. by replace (pc s + 2 + 1) with (pc s + 3) by lia. }
  exists regs3. split_and!.
  - simpl. rewrite (bind_silent _ _ _ _ _ Hstep1), (bind_silent _ _ _ _ _ Hstep2).
    unfold pure. do 2 f_equal. lia.
  - done.
  - rewrite (getitem_setitem_eq _ _ _ _ Hregs3). f_equal. lia.
  - intros j Hj.
    destruct (decide (py_index (length (register s)) sp
                      = py_index (length (register s)) j)) as [Hsp|Hsp].
    + assert (∀ l, length l = length (register s) → getitem l j = getitem l sp) as Hal.
      { intros l Hl. unfold getitem. by rewrite Hl, Hsp. }
      pose proof (setitem_length _ _ _ _ Hregs3) as Hlen3.
      rewrite (Hal regs3), (Hal (register s)) by congruence.
      rewrite Htop, (getitem_setitem_eq _ _ _ _ Hregs3). f_equal. lia.
    + rewrite (getitem_setitem_ne _ _ _ _ _ Hregs3), (getitem_setitem_ne _ _ _ _ _ Hregs2),
        (getitem_setitem_ne _ _ _ _ _ Hregs1); [done|done|..];
        unfold same_cell in *; rewrite ?Hlen2, ?Hlen1; done.
Qed.

Lemma pop_push_roundtrip_witness :
  ∃ regs, run_loop 2 pop_push_state
            = Ok tt (mkCPU regs (memory pop_push_state) (pc pop_push_state + 4)
                           (fl pop_push_state)) [] ∧
          getitem regs 2 = Some 77 ∧
          getitem regs sp = Some 0xf0 ∧
          ∀ j, ¬ same_cell (register pop_push_state) 2 j →
               getitem regs j = getitem (register pop_push_state) j.
Proof.
  apply (pop_push_roundtrip pop_push_state 2 0xf0 77); try reflexivity. lia.
Defined.

(** ** Instructions in sequence *)

Lemma handle_cmp_run s a b va vb :
  getitem (register s) a = Some va →
  getitem (register s) b = Some vb →
  handle_cmp [a; b] s =
    Ok tt (set_pc (pc s + 3)
             (set_fl (if bool_decide (va = vb) then 1
                      else if bool_decide (va < vb) then 4 else 2) s)) [].
Proof.
  intros Ha Hb. unfold handle_cmp. do 2 exec.
  exec_with (alu_cmp_run s a b va vb Ha Hb). by exec.
Qed.

Lemma flag_after_cmp va vb :
  Z.land (if bool_decide (va = vb) then 1 else if bool_decide (va < vb) then 4 else 2) 1
    = if bool_decide (va = vb) then 1 else 0.
Proof. by repeat case_bool_decide. Qed.

(** X11: CMP a b followed by JEQ r continues at register[r] when the two
    registers hold equal values and at the byte after the JEQ otherwise;
    followed by JNE r it is the other way round.  Registers and memory are
    untouched; FL keeps the outcome of the comparison. *)
Theorem cmp_then_conditional_jump s a b r va vb target :
  getitem (memory s) (pc s) = Some CMP →
  getitem (memory s) (pc s + 1) = Some a →
  getitem (memory s) (pc s + 2) = Some b →
  getitem (memory s) (pc s + 4) = Some r →
  getitem (register s) a = Some va →
  getitem (register s) b = Some vb →
  getitem (register s) r = Some target →
  let f := if bool_decide (va = vb) then 1 else if bool_decide (va < vb) then 4 else 2 in
  (getitem (memory s) (pc s + 3) = Some JEQ →
   run_loop 2 s
     = Ok tt (set_pc (if bool_decide (va = vb) then target else pc s + 5) (set_fl f s)) []) ∧
  (getitem (memory s) (pc s + 3) = Some JNE →
   run_loop 2 s
     = Ok tt (set_pc (if bool_decide (va = vb) then pc s + 5 else target) (set_fl f s)) []).
Proof.
  intros Hcmp Ha Hb Hr Hva Hvb Htarget f.
  assert (Z.land f 1 = if bool_decide (va = vb) then 1 else 0) as Hbit
    by apply flag_after_cmp.
  assert (f = if bool_decide (va = vb) then 1
              else if bool_decide (va < vb) then 4 else 2) as Hf by done.
  clearbody f.
  set (s1 := set_pc (pc s + 3) (set_fl f s)).
  assert (step s = Ok tt s1 []) as Hstep1.
  { rewrite (step_two_operands s CMP a b) by done.
    change (dispatch CMP [a; b]) with (handle_cmp [a; b]).
    rewrite (handle_cmp_run s a b va vb) by done. by rewrite <- Hf. }
  assert (getitem (memory s1) (pc s1 + 1) = Some r) as Hr1.
  { simpl. by replace (pc s + 3 + 1) with (pc s + 4) by lia. }
  split; intros Hj; simpl run_loop; rewrite (bind_silent _ _ _ _ _ Hstep1).
  - assert (step s1 = Ok tt (set_pc (if bool_decide (va = vb) then target else pc s + 5)
                               (set_fl f s)) []) as Hstep2; [|by rewrite (bind_silent _ _ _ _ _ Hstep2)].
    rewrite (step_one_operand s1 JEQ r) by done.
    change (dispatch JEQ [r]) with (jeq [r]). unfold jeq. exec.
    change (fl s1) with f. rewrite Hbit.
    destruct (decide (va = vb)) as [Heq|Hne].
    + rewrite !(bool_decide_true (va = vb)) by done.
      rewrite bool_decide_true by done. by do 2 exec.
    + rewrite !(bool_decide_false (va = vb)) by done.
      rewrite bool_decide_false by done. exec. unfold put_pc, set_pc. simpl.
      do 2 f_equal. lia.
  - assert (step s1 = Ok tt (set_pc (if bool_decide (va = vb) then pc s + 5 else target)
                               (set_fl f s)) []) as Hstep2; [|by rewrite (bind_silent _ _ _ _ _ Hstep2)].
    rewrite (step_one_operand s1 JNE r) by done.
    change (dispatch JNE [r]) with (jne [r]). unfold jne. exec.
    change (fl s1) with f. rewrite Hbit.
    destruct (decide (va = vb)) as [Heq|Hne].
    + rewrite !(bool_decide_true (va = vb)) by done.
      rewrite bool_decide_false by done. exec. unfold put_pc, set_pc. simpl.
      do 2 f_equal. lia.
    + rewrite !(bool_decide_false (va = vb)) by done.
      rewrite bool_decide_true by done. by do 2 exec.
Qed.

Lemma cmp_then_conditional_jump_witness :
  run_loop 2 cmp_state = Ok tt (set_pc 0 (set_fl 1 cmp_state)) [] ∧
  run_loop 2 cmp_jne_state = Ok tt (set_pc 9 (set_fl 4 cmp_jne_state)) [].
Proof.
  split.
  - apply (cmp_then_conditional_jump cmp_state 0 1 2 3 3 0); reflexivity.
  - apply (cmp_then_conditional_jump cmp_jne_state 0 1 2 3 4 9); reflexivity.
Defined.

Lemma handle_add_run s a b va vb regs1 :
  getitem (register s) a = Some va →
  getitem (register s) b = Some vb →
  setitem (register s) a (va + vb) = Some regs1 →
  handle_add [a; b] s = Ok tt (mkCPU regs1 (memory s) (pc s + 3) (fl s)) [].
Proof.
  intros Ha Hb Hset. unfold handle_add. do 2 exec.
  destruct (alu_add_exact s a b va vb Ha Hb) as (r' & Hset' & Hrun).
  assert (r' = regs1) as -> by congruence.
  exec_with Hrun. by exec.
Qed.

Lemma handle_mul_run s a b va vb regs1 :
  getitem (register s) a = Some va →
  getitem (register s) b = Some vb →
  setitem (register s) a (va * vb) = Some regs1 →
  handle_mul [a; b] s = Ok tt (mkCPU regs1 (memory s) (pc s + 3) (fl s)) [].
Proof.
  intros Ha Hb Hset. unfold handle_mul. do 2 exec.
  destruct (alu_mul_exact s a b va vb Ha Hb) as (r' & Hset' & Hrun).
  assert (r' = regs1) as -> by congruence.
  exec_with Hrun. by exec.
Qed.

Lemma step_LDI s r v regs1 :
  getitem (memory s) (pc s) = Some LDI →
  getitem (memory s) (pc s + 1) = Some r →
  getitem (memory s) (pc s + 2) = Some v →
  setitem (register s) r v = Some regs1 →
  step s = Ok tt (mkCPU regs1 (memory s) (pc s + 3) (fl s)) [].
Proof.
  intros. rewrite (step_two_operands s LDI r v) by done.
  rewrite dispatch_LDI. by apply handle_ldi_run.
Qed.

Lemma step_PRN s r v :
  getitem (memory s) (pc s) = Some PRN →
  getitem (memory s) (pc s + 1) = Some r →
  getitem (register s) r = Some v →
  step s = Ok tt (set_pc (pc s + 2) s) [str v].
Proof.
  intros. rewrite (step_one_operand s PRN r) by done.
  rewrite dispatch_PRN. by apply handle_prn_run.
Qed.

(** X12: the program LDI a x; LDI b y; ADD a b; PRN a, with a and b two
    different registers among 0..7 and x, y two 8-bit immediates, prints
    exactly one line, the decimal numeral of the integer x + y (not reduced:
    200 + 100 is printed as 300), and ends 11 bytes on with x + y in
    register a; with MUL in place of ADD it prints x * y. *)
Theorem arithmetic_program_prints_result s a b x y :
  length (register s) = 8%nat →
  0 ≤ a < 8 → 0 ≤ b < 8 → a ≠ b →
  0 ≤ x < 256 → 0 ≤ y < 256 →
  getitem (memory s) (pc s) = Some LDI →
  getitem (memory s) (pc s + 1) = Some a →
  getitem (memory s) (pc s + 2) = Some x →
  getitem (memory s) (pc s + 3) = Some LDI →
  getitem (memory s) (pc s + 4) = Some b →
  getitem (memory s) (pc s + 5) = Some y →
  getitem (memory s) (pc s + 7) = Some a →
  getitem (memory s) (pc s + 8) = Some b →
  getitem (memory s) (pc s + 9) = Some PRN →
  getitem (memory s) (pc s + 10) = Some a →
  (getitem (memory s) (pc s + 6) = Some ADD →
   ∃ regs, run_loop 4 s = Ok tt (mkCPU regs (memory s) (pc s + 11) (fl s)) [str (x + y)] ∧
           getitem regs a = Some (x + y) ∧ getitem regs b = Some y) ∧
  (getitem (memory s) (pc s + 6) = Some MUL →
   ∃ regs, run_loop 4 s = Ok tt (mkCPU regs (memory s) (pc s + 11) (fl s)) [str (x * y)] ∧
           getitem regs a = Some (x * y) ∧ getitem regs b = Some y).
Proof.
  intros Hlen Ha Hb Hab Hx Hy H0 H1 H2 H3 H4 H5 H7 H8 H9 H10.
  assert (∀ l : list Z, length l = 8%nat → ∀ i, 0 ≤ i < 8 → is_Some (getitem l i)) as Hvalid.
  { intros l Hl i Hi. apply getitem_is_Some. rewrite py_index_nonneg; [eauto|lia]. }
  assert (∀ l : list Z, length l = 8%nat → ¬ same_cell l a b ∧ ¬ same_cell l b a) as Hcell.
  { intros l Hl. split; intros Hc; apply same_cell_nonneg in Hc; lia. }
  destruct (proj2 (setitem_is_Some (register s) a x)) as [regs1 Hregs1]; [by apply Hvalid|].
  pose proof (setitem_length _ _ _ _ Hregs1) as Hlen1. rewrite Hlen in Hlen1.
  destruct (proj2 (setitem_is_Some regs1 b y)) as [regs2 Hregs2]; [by apply Hvalid|].
  pose proof (setitem_length _ _ _ _ Hregs2) as Hlen2. rewrite Hlen1 in Hlen2.
  assert (getitem regs2 a = Some x) as Hax.
  { rewrite (getitem_setitem_ne _ _ _ _ _ Hregs2); [|by apply Hcell].
    by eapply getitem_setitem_eq. }
  pose proof (getitem_setitem_eq _ _ _ _ Hregs2) as Hby.
  set (s1 := mkCPU regs1 (memory s) (pc s + 3) (fl s)).
  set (s2 := mkCPU regs2 (memory s) (pc s + 3 + 3) (fl s)).
  assert (step s = Ok tt s1 []) as Hstep1 by by apply (step_LDI s a x regs1).
  assert (step s1 = Ok tt s2 []) as Hstep2.
  { apply (step_LDI s1 b y regs2); simpl; try done.
    - by replace (pc s + 3 + 1) with (pc s + 4) by lia.
    - by replace (pc s + 3 + 2) with (pc s + 5) by lia. }
  assert (∀ op (h : list Z → M unit) (f : Z → Z → Z),
    getitem (memory s) (pc s + 6) = Some op → operand_count op = 2 →
    dispatch op [a; b] = h [a; b] →
    (∀ regs3, setitem regs2 a (f x y) = Some regs3 →
       h [a; b] s2 = Ok tt (mkCPU regs3 (memory s) (pc s + 3 + 3 + 3) (fl s)) []) →
    ∃ regs, run_loop 4 s = Ok tt (mkCPU regs (memory s) (pc s + 11) (fl s)) [str (f x y)] ∧
            getitem regs a = Some (f x y) ∧ getitem regs b = Some y) as Hgen.
  { intros op h f Hop Hcount Hdisp Hh.
    destruct (proj2 (setitem_is_Some regs2 a (f x y))) as [regs3 Hregs3]; [by apply Hvalid|].
    pose proof (setitem_length _ _ _ _ Hregs3) as Hlen3. rewrite Hlen2 in Hlen3.
    pose proof (getitem_setitem_eq _ _ _ _ Hregs3) as Har.
    set (s3 := mkCPU regs3 (memory s) (pc s + 3 + 3 + 3) (fl s)).
    assert (step s2 = Ok tt s3 []) as Hstep3.
    { rewrite (step_two_operands s2 op a b); simpl; try done.
      - rewrite Hdisp. by apply Hh.
      - by replace (pc s + 3 + 3) with (pc s + 6) by lia.
      - by replace (pc s + 3 + 3 + 1) with (pc s + 7) by lia.
      - by replace (pc s + 3 + 3 + 2) with (pc s + 8) by lia. }
    assert (step s3 = Ok tt (set_pc (pc s + 3 + 3 + 3 + 2) s3) [str (f x y)]) as Hstep4.
    { apply (step_PRN s3 a); simpl; try done.
      - by replace (pc s + 3 + 3 + 3) with (pc s + 9) by lia.
      - by replace (pc s + 3 + 3 + 3 + 1) with (pc s + 10) by lia. }
    exists regs3. split_and!; [|done|].
    - simpl run_loop.
      rewrite (bind_silent _ _ _ _ _ Hstep1), (bind_silent _ _ _ _ _ Hstep2),
        (bind_silent _ _ _ _ _ Hstep3).
      unfold bind. rewrite Hstep4. unfold pure, set_pc. simpl. do 2 f_equal. lia.
    - rewrite (getitem_setitem_ne _ _ _ _ _ Hregs3); [done|by apply Hcell]. }
  split; intros Hop.
  - apply (Hgen ADD handle_add Z.add); [done|reflexivity|reflexivity|].
    intros regs3 Hregs3. by apply (handle_add_run s2 a b x y).
  - apply (Hgen MUL handle_mul Z.mul); [done|reflexivity|reflexivity|].
    intros regs3 Hregs3. by apply (handle_mul_run s2 a b x y).
Qed.

Lemma arithmetic_program_prints_result_witness :
  (∃ regs, run_loop 4 add_program_loaded
             = Ok tt (mkCPU regs (memory add_program_loaded) (pc add_program_loaded + 11)
                            (fl add_program_loaded)) [str (8 + 9)] ∧
           getitem regs 0 = Some (8 + 9) ∧ getitem regs 1 = Some 9) ∧
  (∃ regs, run_loop 4 (set_memory (mul_program ++ replicate 244 0) add_program_loaded)
             = Ok tt (mkCPU regs (mul_program ++ replicate 244 0)
                            (pc add_program_loaded + 11) (fl add_program_loaded))
                  [str (8 * 9)] ∧
           getitem regs 0 = Some (8 * 9) ∧ getitem regs 1 = Some 9).
Proof.
  split.
  - apply (arithmetic_program_prints_result add_program_loaded 0 1 8 9);
      try reflexivity; lia.
  - apply (arithmetic_program_prints_result
             (set_memory (mul_program ++ replicate 244 0) add_program_loaded) 0 1 8 9);
      try reflexivity; lia.
Defined.

(** X13: JMP r moves PC to register[r] without looking at the value: when it
    is no address of memory the jump itself succeeds, and it is the fetch of
    the next iteration that raises [IndexError]. *)
Theorem jmp_is_unchecked s r target fuel :
  getitem (memory s) (pc s) = Some JMP →
  getitem (memory s) (pc s + 1) = Some r →
  getitem (register s) r = Some target →
  step s = Ok tt (set_pc target s) [] ∧
  (getitem (memory s) target = None →
   run_loop (S (S fuel)) s = Raise IndexError (set_pc target s) []).
Proof.
  intros Hjmp Hr Htarget.
  assert (step s = Ok tt (set_pc target s) []) as Hstep.
  { rewrite (step_one_operand s JMP r) by done.
    change (dispatch JMP [r]) with (jmp [r]). unfold jmp. by do 2 exec. }
  split; [done|]. intros Hout.
  simpl run_loop. rewrite (bind_silent _ _ _ _ _ Hstep).
  apply bind_raise. rewrite step_unfold. simpl. by rewrite Hout.
Qed.

Lemma jmp_is_unchecked_witness :
  step jmp_out_state = Ok tt (set_pc 256 jmp_out_state) [] ∧
  run_loop 2 jmp_out_state = Raise IndexError (set_pc 256 jmp_out_state) [].
Proof.
  destruct (jmp_is_unchecked jmp_out_state 0 256 0) as [Hstep Hloop]; try reflexivity.
  split; [exact Hstep|]. apply Hloop. reflexivity.
Defined.

(** ** Loading *)

Lemma load_from_fits values : ∀ a s,
  (a + length values ≤ length (memory s))%nat →
  load_from (Z.of_nat a) values s
    = Ok tt (set_memory (take a (memory s) ++ values
                         ++ drop (a + length values) (memory s)) s) [].
Proof.
  induction values as [|v rest IH]; intros a s Hfit; simpl in *.
  - unfold pure, set_memory. rewrite Nat.add_0_r, take_drop. by destruct s.
  - assert (setitem (memory s) (Z.of_nat a) v = Some (<[a:=v]> (memory s))) as Hset.
    { unfold setitem. rewrite py_index_nonneg by lia. by rewrite Nat2Z.id. }
    exec. replace (Z.of_nat a + 1) with (Z.of_nat (S a)) by lia.
    rewrite IH by (simpl; rewrite length_insert; lia).
    unfold set_memory. simpl.
    rewrite (take_S_r _ _ v) by (apply list_lookup_insert_eq; lia).
    rewrite take_insert_ge by lia.
    rewrite drop_insert_lt by lia.
    rewrite <- app_assoc. simpl.
    by replace (S (a + length rest)) with (a + S (length rest))%nat by lia.
Qed.

Lemma load_from_overflows values : ∀ a s,
  (a ≤ length (memory s) < a + length values)%nat →
  load_from (Z.of_nat a) values s
    = Raise IndexError
        (set_memory (take a (memory s) ++ take (length (memory s) - a) values) s) [].
Proof.
  induction values as [|v rest IH]; intros a s Hover; simpl in *; [lia|].
  destruct (decide (a = length (memory s))) as [->|Hne].
  - apply bind_raise. unfold mem_set, setitem, py_index.
    rewrite !bool_decide_false by lia.
    rewrite Nat.sub_diag, firstn_all. simpl. rewrite app_nil_r.
    unfold set_memory. by destruct s.
  - assert (setitem (memory s) (Z.of_nat a) v = Some (<[a:=v]> (memory s))) as Hset.
    { unfold setitem. rewrite py_index_nonneg by lia. by rewrite Nat2Z.id. }
    exec. replace (Z.of_nat a + 1) with (Z.of_nat (S a)) by lia.
    rewrite IH by (simpl; rewrite length_insert; lia).
    unfold set_memory. simpl. rewrite length_insert.
    rewrite (take_S_r _ _ v) by (apply list_lookup_insert_eq; lia).
    rewrite take_insert_ge by lia.
    replace (length (memory s) - a)%nat with (S (length (memory s) - S a)) by lia.
    simpl. by rewrite <- app_assoc.
Qed.

(** X14: loading writes the values to addresses 0, 1, 2, ... in order and
    touches nothing else: when they fit, memory becomes the values followed
    by the old cells beyond them; when there are more values than cells, the
    first 256 are written and the next assignment raises [IndexError] (which
    [load] does not catch). *)
Theorem load_writes_from_zero values s :
  ((length values ≤ length (memory s))%nat →
   load values s = Ok tt (set_memory (values ++ drop (length values) (memory s)) s) []) ∧
  ((length (memory s) < length values)%nat →
   load values s = Raise IndexError (set_memory (take (length (memory s)) values) s) []).
Proof.
  split; intros Hlen; unfold load; change 0 with (Z.of_nat 0).
  - by rewrite (load_from_fits values 0 s) by (simpl; lia).
  - rewrite (load_from_overflows values 0 s) by lia.
    simpl. by rewrite Nat.sub_0_r.
Qed.

Lemma load_writes_from_zero_witness :
  load add_program init
    = Ok tt (set_memory (add_program ++ drop (length add_program) (memory init)) init) [] ∧
  load (replicate 257 1) init
    = Raise IndexError (set_memory (take (length (memory init)) (replicate 257 1)) init) [].
Proof.
  split.
  - apply (load_writes_from_zero add_program init). vm_compute. lia.
  - apply (load_writes_from_zero (replicate 257 1) init). vm_compute. lia.
Defined.

Lemma run_loop_shape_witness :
  match run_loop 5 add_program_loaded with Ok _ s' _ | Raise _ s' _ => shape s' end.
Proof. apply (run_loop_shape 5 add_program_loaded). by split. Defined.

(** ** The stack is last-in first-out *)

Lemma getitem_nat (l : list Z) i :
  0 ≤ i < Z.of_nat (length l) → getitem l i = l !! Z.to_nat i.
Proof. intros H. unfold getitem. by rewrite py_index_nonneg. Qed.

Lemma setitem_nat (l : list Z) i v :
  0 ≤ i < Z.of_nat (length l) → setitem l i v = Some (<[Z.to_nat i := v]> l).
Proof. intros H. unfold setitem. by rewrite py_index_nonneg. Qed.

Lemma same_cell_length (l l' : list Z) i j :
  length l' = length l → same_cell l i j → same_cell l' i j.
Proof. unfold same_cell. by intros ->. Qed.

(** Two addresses one apart are different cells of a memory with at least
    two cells. *)
Lemma adjacent_cells (l : list Z) i :
  (2 ≤ length l)%nat → is_Some (getitem l i) → ¬ same_cell l i (i - 1).
Proof.
  intros Hlen Hi. apply getitem_is_Some in Hi. destruct Hi as [k Hk].
  unfold same_cell. revert Hk. unfold py_index.
  repeat case_bool_decide; intros Hk Heq; try done;
    injection Heq as Heq; lia.
Qed.

Lemma step_PUSH s r top regs1 v m1 :
  getitem (memory s) (pc s) = Some PUSH →
  getitem (memory s) (pc s + 1) = Some r →
  getitem (register s) sp = Some top →
  setitem (register s) sp (top - 1) = Some regs1 →
  getitem regs1 r = Some v →
  setitem (memory s) (top - 1) v = Some m1 →
  step s = Ok tt (mkCPU regs1 m1 (pc s + 2) (fl s)) [].
Proof.
  intros. rewrite (step_one_operand s PUSH r) by done.
  rewrite dispatch_PUSH. by eapply push_run.
Qed.

Lemma step_POP s r top val regs1 top1 regs2 :
  getitem (memory s) (pc s) = Some POP →
  getitem (memory s) (pc s + 1) = Some r →
  getitem (register s) sp = Some top →
  getitem (memory s) top = Some val →
  setitem (register s) r val = Some regs1 →
  getitem regs1 sp = Some top1 →
  setitem regs1 sp (top1 + 1) = Some regs2 →
  step s = Ok tt (mkCPU regs2 (memory s) (pc s + 2) (fl s)) [].
Proof.
  intros. rewrite (step_one_operand s POP r) by done.
  rewrite dispatch_POP. by eapply pop_run.
Qed.

(** X15: the stack is last-in first-out: PUSH a; PUSH b; POP a; POP b, with a
    and b two different registers among 0..6 and the two stack slots in
    memory and clear of the instruction bytes still to be read, exchanges the
    values of the two registers and leaves the stack pointer where it was. *)
Theorem push_push_pop_pop_swaps s a b va vb top :
  shape s →
  0 ≤ a < 7 → 0 ≤ b < 7 → a ≠ b →
  getitem (memory s) (pc s) = Some PUSH →
  getitem (memory s) (pc s + 1) = Some a →
  getitem (memory s) (pc s + 2) = Some PUSH →
  getitem (memory s) (pc s + 3) = Some b →
  getitem (memory s) (pc s + 4) = Some POP →
  getitem (memory s) (pc s + 5) = Some a →
  getitem (memory s) (pc s + 6) = Some POP →
  getitem (memory s) (pc s + 7) = Some b →
  getitem (register s) a = Some va →
  getitem (register s) b = Some vb →
  getitem (register s) sp = Some top →
  is_Some (getitem (memory s) (top - 1)) →
  is_Some (getitem (memory s) (top - 2)) →
  (∀ j, 2 ≤ j ≤ 7 → ¬ same_cell (memory s) (top - 1) (pc s + j)) →
  (∀ j, 4 ≤ j ≤ 7 → ¬ same_cell (memory s) (top - 2) (pc s + j)) →
  ∃ s4, run_loop 4 s = Ok tt s4 [] ∧
        getitem (register s4) a = Some vb ∧
        getitem (register s4) b = Some va ∧
        getitem (register s4) sp = Some top ∧
        pc s4 = pc s + 8.
Proof.
  intros [Hlr Hlm] Ha Hb Hab H0 H1 H2 H3 H4 H5 H6 H7 Hva Hvb Htop Hs1 Hs2 Hc1 Hc2.
  set (A := Z.to_nat a). set (B := Z.to_nat b).
  assert (A ≠ 7 ∧ B ≠ 7 ∧ A ≠ B ∧ A < 8 ∧ B < 8)%nat as (HA7 & HB7 & HAB & HA8 & HB8)
    by (unfold A, B; lia).
  assert (∀ l : list Z, length l = 8%nat →
            getitem l a = l !! A ∧ getitem l b = l !! B ∧ getitem l sp = l !! 7%nat ∧
            (∀ v, setitem l a v = Some (<[A:=v]> l)) ∧
            (∀ v, setitem l b v = Some (<[B:=v]> l)) ∧
            (∀ v, setitem l sp v = Some (<[7%nat:=v]> l))) as Hreg.
  { intros l Hl. split_and!; intros;
      first [apply getitem_nat | apply setitem_nat]; unfold sp; lia. }
  destruct (Hreg (register s) Hlr) as (Hga & Hgb & Hgs & _ & _ & _).
  rewrite Hga in Hva. rewrite Hgb in Hvb. rewrite Hgs in Htop.
  (* the four register files and two memories in turn *)
  set (r1 := <[7%nat := top - 1]> (register s)).
  set (r2 := <[7%nat := top - 1 - 1]> r1).
  set (r3 := <[7%nat := top - 1 - 1 + 1]> (<[A := vb]> r2)).
  set (r4 := <[7%nat := top - 1 - 1 + 1 + 1]> (<[B := va]> r3)).
  destruct (proj2 (setitem_is_Some (memory s) (top - 1) va) Hs1) as [m1 Hm1].
  pose proof (setitem_length _ _ _ _ Hm1) as Hlm1.
  assert (is_Some (getitem m1 (top - 1 - 1))) as Hs2'.
  { apply getitem_is_Some. rewrite Hlm1. apply getitem_is_Some.
    by replace (top - 1 - 1) with (top - 2) by lia. }
  destruct (proj2 (setitem_is_Some m1 (top - 1 - 1) vb) Hs2') as [m2 Hm2].
  assert (∀ j, 2 ≤ j ≤ 7 → getitem m1 (pc s + j) = getitem (memory s) (pc s + j)) as Hm1j.
  { intros j Hj. rewrite (getitem_setitem_ne _ _ _ _ _ Hm1); [done|by apply Hc1]. }
  assert (∀ j, 4 ≤ j ≤ 7 → getitem m2 (pc s + j) = getitem (memory s) (pc s + j)) as Hm2j.
  { intros j Hj. rewrite (getitem_setitem_ne _ _ _ _ _ Hm2).
    - apply Hm1j. lia.
    - intros Hc. apply (Hc2 j Hj). apply (same_cell_length m1); [done|].
      by replace (top - 2) with (top - 1 - 1) by lia. }
  assert (getitem m2 (top - 1) = Some va) as Hslot1.
  { rewrite (getitem_setitem_ne _ _ _ _ _ Hm2).
    - by eapply getitem_setitem_eq.
    - intros Hc. apply (adjacent_cells m1 (top - 1)).
      + rewrite Hlm1, Hlm. lia.
      + rewrite (getitem_setitem_eq _ _ _ _ Hm1). eauto.
      + unfold same_cell in *. by rewrite <- Hc. }
  pose proof (getitem_setitem_eq _ _ _ _ Hm2) as Hslot2.
  assert (length r1 = 8%nat ∧ length r2 = 8%nat ∧ length (<[A := vb]> r2) = 8%nat ∧
          length r3 = 8%nat ∧ length (<[B := va]> r3) = 8%nat ∧ length r4 = 8%nat)
    as (Hl1 & Hl2 & Hl2' & Hl3 & Hl3' & Hl4)
    by (unfold r4, r3, r2, r1; rewrite !length_insert; done).
  set (s1 := mkCPU r1 m1 (pc s + 2) (fl s)).
  set (s2 := mkCPU r2 m2 (pc s + 2 + 2) (fl s)).
  set (s3 := mkCPU r3 m2 (pc s + 2 + 2 + 2) (fl s)).
  set (s4 := mkCPU r4 m2 (pc s + 2 + 2 + 2 + 2) (fl s)).
  assert (step s = Ok tt s1 []) as Hstep1.
  { apply (step_PUSH s a top r1 va m1); try done.
    - by rewrite Hgs.
    - by apply Hreg.
    - destruct (Hreg r1 Hl1) as (-> & _). unfold r1.
      by rewrite list_lookup_insert_ne by done. }
  assert (step s1 = Ok tt s2 []) as Hstep2.
  { apply (step_PUSH s1 b (top - 1) r2 vb m2); simpl; try done.
    - rewrite (Hm1j 2) by lia. done.
    - replace (pc s + 2 + 1) with (pc s + 3) by lia. by rewrite (Hm1j 3) by lia.
    - destruct (Hreg r1 Hl1) as (_ & _ & -> & _). unfold r1.
      by rewrite list_lookup_insert_eq by lia.
    - by apply Hreg.
    - destruct (Hreg r2 Hl2) as (_ & -> & _). unfold r2, r1.
      by rewrite !list_lookup_insert_ne by done. }
  assert (step s2 = Ok tt s3 []) as Hstep3.
  { apply (step_POP s2 a (top - 1 - 1) vb (<[A := vb]> r2) (top - 1 - 1)); simpl; try done.
    - replace (pc s + 2 + 2) with (pc s + 4) by lia. by rewrite (Hm2j 4) by lia.
    - replace (pc s + 2 + 2 + 1) with (pc s + 5) by lia. by rewrite (Hm2j 5) by lia.
    - destruct (Hreg r2 Hl2) as (_ & _ & -> & _). unfold r2.
      by rewrite list_lookup_insert_eq by lia.
    - by apply Hreg.
    - destruct (Hreg (<[A := vb]> r2) Hl2') as (_ & _ & -> & _).
      rewrite list_lookup_insert_ne by done. unfold r2.
      by rewrite list_lookup_insert_eq by lia.
    - by apply Hreg. }
  assert (step s3 = Ok tt s4 []) as Hstep4.
  { apply (step_POP s3 b (top - 1 - 1 + 1) va (<[B := va]> r3) (top - 1 - 1 + 1));
      simpl; try done.
    - replace (pc s + 2 + 2 + 2) with (pc s + 6) by lia. by rewrite (Hm2j 6) by lia.
    - replace (pc s + 2 + 2 + 2 + 1) with (pc s + 7) by lia. by rewrite (Hm2j 7) by lia.
    - destruct (Hreg r3 Hl3) as (_ & _ & -> & _). unfold r3.
      by rewrite list_lookup_insert_eq by lia.
    - by replace (top - 1 - 1 + 1) with (top - 1) by lia.
    - by apply Hreg.
    - destruct (Hreg (<[B := va]> r3) Hl3') as (_ & _ & -> & _).
      rewrite list_lookup_insert_ne by done. unfold r3.
      by rewrite list_lookup_insert_eq by lia.
    - by apply Hreg. }
  exists s4. split_and!.
  - simpl run_loop.
    by rewrite (bind_silent _ _ _ _ _ Hstep1), (bind_silent _ _ _ _ _ Hstep2),
      (bind_silent _ _ _ _ _ Hstep3), (bind_silent _ _ _ _ _ Hstep4).
  - simpl. destruct (Hreg r4 Hl4) as (-> & _). unfold r4, r3.
    rewrite list_lookup_insert_ne by done. rewrite list_lookup_insert_ne by done.
    rewrite list_lookup_insert_ne by done. by rewrite list_lookup_insert_eq by lia.
  - simpl. destruct (Hreg r4 Hl4) as (_ & -> & _). unfold r4.
    rewrite list_lookup_insert_ne by done. by rewrite list_lookup_insert_eq by lia.
  - simpl. destruct (Hreg r4 Hl4) as (_ & _ & -> & _). unfold r4.
    rewrite list_lookup_insert_eq by (rewrite length_insert; lia). f_equal. lia.
  - simpl. lia.
Qed.

Lemma push_push_pop_pop_swaps_witness :
  ∃ s4, run_loop 4 swap_state = Ok tt s4 [] ∧
        getitem (register s4) 1 = Some 22 ∧
        getitem (register s4) 2 = Some 11 ∧
        getitem (register s4) sp = Some 0xf4 ∧
        pc s4 = pc swap_state + 8.
Proof.
  apply (push_push_pop_pop_swaps swap_state 1 2 11 22 0xf4);
    try reflexivity; try lia; try (by split); try (by eexists).
  - intros j Hj. unfold same_cell. simpl. rewrite (py_index_nonneg 256 (0 + j)) by lia.
    intros [= H]. lia.
  - intros j Hj. unfold same_cell. simpl. rewrite (py_index_nonneg 256 (0 + j)) by lia.
    intros [= H]. lia.
Defined.

(** ** Comments and blank lines in a program file *)

Lemma before_hash_app line comment :
  before_hash (line +:+ "#" +:+ comment) = before_hash line.
Proof.
  induction line as [|c line IH]; [done|].
  simpl. destruct (Ascii.eqb c hash); [done|]. by rewrite IH.
Qed.

(** X16: whatever follows the first '#' of a line is ignored by the loader:
    appending a comment to every line of a program changes neither what is
    stored nor how loading ends. *)
Theorem load_ignores_comments strip int2 lines comments address s :
  length comments = length lines →
  load_lines strip int2 address
    (zip_with (λ line comment, line +:+ "#" +:+ comment) lines comments) s
  = load_lines strip int2 address lines s.
Proof.
  revert comments address s.
  induction lines as [|line lines IH]; intros [|c comments] address s Hlen;
    try done.
  simpl. rewrite before_hash_app.
  injection Hlen as Hlen.
  destruct (decide (strip (before_hash line) = EmptyString)); [by apply IH|].
  destruct (int2 (strip (before_hash line))); [|done].
  destruct (setitem (memory s) address z); [|done]. by apply IH.
Qed.

Lemma load_ignores_comments_witness :
  load_lines (λ x, x) (λ _, Some 1) 0
    (zip_with (λ line comment, line +:+ "#" +:+ comment) ["1"; ""] [" first"; " nothing"])
    init
  = load_lines (λ x, x) (λ _, Some 1) 0 ["1"; ""] init.
Proof.
  apply (load_ignores_comments (λ x, x) (λ _, Some 1) ["1"; ""] [" first"; " nothing"] 0 init).
  reflexivity.
Defined.

(** X17: a line that is blank once its comment is cut and it is stripped
    takes no address: loading a file gives the same result as loading it
    with all such lines removed. *)
Theorem load_skips_blank_lines strip int2 lines address s :
  load_lines strip int2 address
    (filter (λ line, strip (before_hash line) ≠ EmptyString) lines) s
  = load_lines strip int2 address lines s.
Proof.
  revert address s. induction lines as [|line lines IH]; intros address s; [done|].
  rewrite filter_cons. simpl.
  destruct (decide (strip (before_hash line) = EmptyString)) as [Hblank|Hnum].
  - rewrite decide_False by (by intros H). apply IH.
  - rewrite decide_True by done. simpl. rewrite decide_False by done.
    destruct (int2 (strip (before_hash line))); [|done].
    destruct (setitem (memory s) address z); [|done]. apply IH.
Qed.

(** X18: when every remaining line is a numeral, the loader stores the
    numbers exactly as the store loop modelled by [load_from] does: the same
    final state, and an [IndexError] in the same place. *)
Theorem load_lines_stores_values strip int2 lines values address s :
  Forall2 (λ line value, strip (before_hash line) ≠ EmptyString ∧
                         int2 (strip (before_hash line)) = Some value) lines values →
  load_lines strip int2 address lines s =
    match load_from address values s with
    | Ok _ s' _ => Loaded s'
    | Raise _ s' _ => LoadIndexError s'
    end.
Proof.
  intros Hall. revert address s.
  induction Hall as [|line value lines values [Hnum Hval] _ IH]; intros address s; [done|].
  simpl. rewrite decide_False by done. rewrite Hval.
  unfold bind, mem_set.
  destruct (setitem (memory s) address value) as [m|]; [|done].
  rewrite IH. by destruct (load_from (address + 1) values (set_memory m s)).
Qed.

Lemma load_lines_stores_values_witness :
  load_lines (λ x, x) (λ _, Some 1) 0 ["1"; "1"] init =
    match load_from 0 [1; 1] init with
    | Ok _ s' _ => Loaded s'
    | Raise _ s' _ => LoadIndexError s'
    end.
Proof.
  apply (load_lines_stores_values (λ x, x) (λ _, Some 1) ["1"; "1"] [1; 1] 0 init).
  repeat constructor; done.
Defined.

(** ** Register operands of LDI *)

(** X19: LDI takes its register operand as a raw list subscript: -8..-1 name
    registers 0..7 from the end (so -1 is the stack pointer), and anything
    outside -8..7 raises [IndexError] with the state untouched. *)
Theorem ldi_register_operand s r v :
  length (register s) = 8%nat →
  (-8 ≤ r < 0 → handle_ldi [r; v] s = handle_ldi [r + 8; v] s) ∧
  (r < -8 ∨ 8 ≤ r → handle_ldi [r; v] s = Raise IndexError s []).
Proof.
  intros Hlen. unfold handle_ldi.
  split; intros Hr; do 2 exec.
  - symmetry. do 2 exec. symmetry.
    assert (reg_set r v s = reg_set (r + 8) v s) as Hset.
    { unfold reg_set, setitem, py_index. rewrite Hlen.
      rewrite (bool_decide_false (0 ≤ r < _)) by lia.
      rewrite (bool_decide_true (_ ≤ r < 0)) by lia.
      rewrite (bool_decide_true (0 ≤ r + 8 < _)) by lia.
      replace (Z.to_nat (Z.of_nat 8 + r)) with (Z.to_nat (r + 8)) by lia. done. }
    unfold bind at 1 3. by rewrite Hset.
  - apply bind_raise. unfold reg_set, setitem, py_index. rewrite Hlen.
    by rewrite !bool_decide_false by lia.
Qed.

Lemma ldi_register_operand_witness :
  handle_ldi [-1; 5] init = handle_ldi [-1 + 8; 5] init ∧
  handle_ldi [8; 5] init = Raise IndexError init [].
Proof.
  destruct (ldi_register_operand init (-1) 5) as [Hneg _]; [reflexivity|].
  destruct (ldi_register_operand init 8 5) as [_ Hout]; [reflexivity|].
  split; [apply Hneg|apply Hout]; lia.
Defined.

Lemma load_lines_app strip int2 lines values more : ∀ address s s',
  Forall2 (λ line value, strip (before_hash line) ≠ EmptyString ∧
                         int2 (strip (before_hash line)) = Some value) lines values →
  load_from address values s = Ok tt s' [] →
  load_lines strip int2 address (lines ++ more) s
    = load_lines strip int2 (address + Z.of_nat (length values)) more s'.
Proof.
  intros address s s' Hall. revert address s.
  induction Hall as [|line value lines values [Hnum Hval] _ IH]; intros address s Hload.
  - simpl in *. injection Hload as <-. by rewrite Z.add_0_r.
  - simpl in *. rewrite decide_False by done. rewrite Hval.
    unfold bind, mem_set in Hload.
    destruct (setitem (memory s) address value) as [m|]; [|done].
    destruct (load_from (address + 1) values (set_memory m s)) as [[] s1 o1|] eqn:E;
      [|done].
    injection Hload as <- Ho. simpl in Ho. subst o1.
    rewrite (IH _ _ E). f_equal. lia.
Qed.

(** X20: a malformed numeral stops the load with [ValueError] on the spot:
    the numbers of the lines before it are already in memory, from address 0
    on, and no later line is looked at. *)
Theorem load_stops_at_bad_numeral strip int2 lines values bad rest s :
  Forall2 (λ line value, strip (before_hash line) ≠ EmptyString ∧
                         int2 (strip (before_hash line)) = Some value) lines values →
  (length values ≤ length (memory s))%nat →
  strip (before_hash bad) ≠ EmptyString →
  int2 (strip (before_hash bad)) = None →
  load_lines strip int2 0 (lines ++ bad :: rest) s
    = LoadValueError (strip (before_hash bad))
        (set_memory (values ++ drop (length values) (memory s)) s).
Proof.
  intros Hall Hfit Hnum Hbad.
  rewrite (load_lines_app strip int2 lines values (bad :: rest) 0 s
             (set_memory (values ++ drop (length values) (memory s)) s) Hall).
  - simpl. rewrite decide_False by done. by rewrite Hbad.
  - change 0 with (Z.of_nat 0). by rewrite (load_from_fits values 0 s) by (simpl; lia).
Qed.

Lemma load_stops_at_bad_numeral_witness :
  load_lines (λ x, x) (λ x, if decide (x = "1") then Some 1 else None) 0
             (["1"; "1"] ++ "2" :: ["1"]) init
    = LoadValueError "2"
        (set_memory ([1; 1] ++ drop (length [1; 1]) (memory init)) init).
Proof.
  apply (load_stops_at_bad_numeral (λ x, x)
           (λ x, if decide (x = "1") then Some 1 else None) ["1"; "1"] [1; 1] "2" ["1"] init).
  - repeat constructor; done.
  - vm_compute. lia.
  - done.
  - reflexivity.
Defined.
